(** * Handwrite.py: the text-layout engine of the handwriting converter

  A shallow embedding of [src/Handwrite.py]: the word wrapper
  ([split_text_into_lines]), the fit checker ([text_fits_on_page]), the
  font-size adapter ([adjust_font_size]), the line renderer
  ([draw_text]) and the page composer ([text_to_handwriting]).

  Python [str] values are modelled as [string]; a character is a code
  point below 256.  The Pillow calls the program makes are modelled as
  follows: [draw.textbbox] is a parameter of the development,
  [ImageFont.truetype] succeeds exactly on the font files an environment
  declares available, and [draw.text], [img.save] and [st.error] are
  recorded, in order, in a trace of events.  Python [set] objects live in
  a store indexed by references, so that aliasing is visible. *)

From Stdlib Require Import ZArith Ascii.
From stdpp Require Import base tactics option list list_numbers sorting gmap strings.
From Equations Require Import Equations.

Local Open Scope Z_scope.
#[local] Set Warnings "-clear-no-such-hyp".

(** ** Python string methods *)

Module Str.

(** [str.isspace] on one character, for code points below 256. *)
Definition isspace (c : ascii) : bool :=
  match c with
  | "009" | "010" | "011" | "012" | "013"
  | "028" | "029" | "030" | "031" | " " | "133" | "160" => true
  | _ => false
  end%char.

Definition newline : ascii := "010"%char.

(** The one-character string ["\n"]. *)
Definition nl : string := String newline "".

(** [" ".join(l)], ["\n".join(l)]. *)
Definition join (sep : string) (l : list string) : string :=
  String.concat sep l.

(** [s.split('\n')]: never empty, [""] splits to [[""]]. *)
Fixpoint split_nl (s : string) : list string :=
  match s with
  | "" => [""]
  | String c s' =>
      if Ascii.eqb c newline then "" :: split_nl s'
      else match split_nl s' with
           | l :: ls => String c l :: ls
           | [] => [String c ""]
           end
  end.

Definition flush (cur : string) : list string :=
  if String.eqb cur "" then [] else [cur].

(** [s.split()]: the maximal runs of non-whitespace characters. [cur] is
    the word being read. *)
Fixpoint split_go (cur : string) (s : string) : list string :=
  match s with
  | "" => flush cur
  | String c s' =>
      if isspace c then flush cur ++ split_go "" s'
      else split_go (cur +:+ String c "") s'
  end.

Definition split (s : string) : list string := split_go "" s.

Fixpoint lstrip (s : string) : string :=
  match s with
  | "" => ""
  | String c s' => if isspace c then lstrip s' else s
  end.

Fixpoint rstrip (s : string) : string :=
  match s with
  | "" => ""
  | String c s' =>
      let r := rstrip s' in
      if String.eqb r "" && isspace c then "" else String c r
  end.

(** [s.strip()] *)
Definition strip (s : string) : string := rstrip (lstrip s).

(** [s.startswith(p)] *)
Definition startswith (s p : string) : bool := String.prefix p s.

(** [s.endswith(p)] *)
Definition endswith (s p : string) : bool :=
  String.prefix (String.rev p) (String.rev s).

(** [s[n:]] *)
Fixpoint drop (n : nat) (s : string) : string :=
  match n, s with
  | O, _ => s
  | S n', String _ s' => drop n' s'
  | S _, "" => ""
  end.

(** [s[2:-2]]: empty when [s] has fewer than five characters. *)
Definition slice_2_m2 (s : string) : string :=
  String.substring 2 (String.length s - 4) s.

(** A word: non-empty and free of whitespace. *)
Fixpoint no_space (s : string) : bool :=
  match s with
  | "" => true
  | String c s' => negb (isspace c) && no_space s'
  end.

Definition is_word (s : string) : bool :=
  negb (String.eqb s "") && no_space s.

(** Only whitespace. *)
Fixpoint all_space (s : string) : bool :=
  match s with
  | "" => true
  | String c s' => isspace c && all_space s'
  end.

Fixpoint no_newline (s : string) : bool :=
  match s with
  | "" => true
  | String c s' => negb (Ascii.eqb c newline) && no_newline s'
  end.

End Str.

(** ** The Pillow and Streamlit interface *)

(** A font handle, as returned by [ImageFont.truetype(font_path, size)]:
    [font.path] and [font.size] are the arguments it was loaded with. *)
Record Font := { path : string; size : Z }.

(** The tuple [(left, top, right, bottom)] returned by [draw.textbbox]. *)
Record BBox := { bb_left : Z; bb_top : Z; bb_right : Z; bb_bottom : Z }.

(** What the program takes from its surroundings: the metrics
    [draw.textbbox((0, 0), text, font=font)] ([font] may be [None]), and
    which font files [ImageFont.truetype] can open. *)
Record Pillow := {
  textbbox : option Font → string → BBox;
  font_available : string → bool
}.

(** The observable actions of the program, in the order they happen. *)
Inductive Event :=
| NewImage (width height : Z)
| Truetype (path : string) (font_size : Z)
| StError (msg : string)
| DrawText (x y : Z) (text : string) (font : Font) (fill : string)
| Save (path : string).

(** References to Python [set] objects. *)
Abbreviation loc := positive.

Record World := {
  trace : list Event;
  sets : gmap loc (gset string)
}.

(** The default arguments [previous_lines=set()] of [draw_text] and
    [previous_texts=set()] of [text_to_handwriting] are evaluated once, when
    the functions are defined: each is one object for the whole run. *)
Definition draw_text_default : loc := 1%positive.
Definition text_to_handwriting_default : loc := 2%positive.

Definition initial_world : World :=
  {| trace := [];
     sets := {[ draw_text_default := ∅; text_to_handwriting_default := ∅ ]} |}.

(** ** Computations that act on the world *)

Definition M (A : Type) : Type := World → A * World.

#[global] Instance M_ret : MRet M := λ A a w, (a, w).
#[global] Instance M_bind : MBind M :=
  λ A B f m w, let '(a, w') := m w in f a w'.

Definition emit (e : Event) : M unit :=
  λ w, (tt, {| trace := trace w ++ [e]; sets := sets w |}).

(** The contents of the set object at [l]. *)
Definition read_set (l : loc) : M (gset string) :=
  λ w, (sets w !!! l, w).

(** [s.add(x)] on the set object at [l]. *)
Definition set_add (l : loc) (x : string) : M unit :=
  λ w, (tt, {| trace := trace w; sets := <[l := {[x]} ∪ sets w !!! l]> (sets w) |}).

(** [for x in l: acc = body(acc, x)] *)
Fixpoint for_each {A B : Type} (body : B → A → M B) (l : list A) (acc : B) : M B :=
  match l with
  | [] => mret acc
  | x :: l' => acc' ← body acc x; for_each body l' acc'
  end.

Definition font_not_found : string :=
  "Font file not found. Please check the path.".
Definition could_not_format : string :=
  "Could not format the text to fit the page.".

(** ** The program *)

Definition create_image (a4_size : Z * Z) : M unit :=
  emit (NewImage (fst a4_size) (snd a4_size)).

Definition load_font (P : Pillow) (font_path : string) (font_size : Z)
  : M (option Font) :=
  emit (Truetype font_path font_size);;
  if font_available P font_path
  then mret (Some {| path := font_path; size := font_size |})
  else emit (StError font_not_found);; mret None.

(** [bbox[2] - bbox[0]] and [bbox[3] - bbox[1]] *)
Definition bbox_width (b : BBox) : Z := bb_right b - bb_left b.
Definition bbox_height (b : BBox) : Z := bb_bottom b - bb_top b.

Fixpoint fits_loop (P : Pillow) (font : option Font) (max_width max_height : Z)
  (lines : list string) (current_height : Z) : bool :=
  match lines with
  | [] => true
  | line :: rest =>
      let bbox := textbbox P font line in
      let width := bbox_width bbox in
      let height := bbox_height bbox in
      if (width >? max_width) || (current_height + height >? max_height)
      then false
      else fits_loop P font max_width max_height rest (current_height + height + 8)
  end.

Definition text_fits_on_page (P : Pillow) (text : string) (font : option Font)
  (max_width max_height : Z) : bool :=
  fits_loop P font max_width max_height (Str.split_nl text) 0.

(** The state of the wrapper's loops: [lines] and [current_line]. *)
Definition wrap_state : Type := list string * list string.

(** The body of [for word in line.split()]. *)
Definition wrap_word (P : Pillow) (max_width : Z) (font : option Font)
  (st : wrap_state) (word : string) : wrap_state :=
  let '(lines, current_line) := st in
  let current_line := current_line ++ [word] in
  let line_text := Str.join " " current_line in
  if bbox_width (textbbox P font line_text) >? max_width
  then
    let current_line := removelast current_line in
    (lines ++ [Str.join " " current_line], [word])
  else (lines, current_line).

(** The body of [for line in text.split('\n')]. *)
Definition wrap_paragraph (P : Pillow) (max_width : Z) (font : option Font)
  (st : wrap_state) (line : string) : wrap_state :=
  let '(lines, current_line) := st in
  if String.eqb (Str.strip line) "" then (lines ++ [""], current_line)
  else if Str.startswith line "## " then
    let '(lines, current_line) :=
      match current_line with
      | [] => (lines, current_line)
      | _ :: _ => (lines ++ [Str.join " " current_line], [])
      end in
    (lines ++ [Str.drop 3 line], current_line)
  else
    let '(lines, current_line) :=
      fold_left (wrap_word P max_width font) (Str.split line) (lines, current_line) in
    match current_line with
    | [] => (lines, current_line)
    | _ :: _ => (lines ++ [Str.join " " current_line], current_line)
    end.

Definition wrap_lines (P : Pillow) (text : string) (max_width : Z)
  (font : option Font) : list string :=
  fst (fold_left (wrap_paragraph P max_width font) (Str.split_nl text) ([], [])).

Definition split_text_into_lines (P : Pillow) (text : string) (max_width : Z)
  (font : option Font) : string :=
  Str.join Str.nl (wrap_lines P text max_width font).

(** The loop [while font_size > 10] of [adjust_font_size], entered with the
    current value of [font_size]. *)
Equations? adjust_loop (P : Pillow) (text font_path : string)
  (max_width max_height : Z) (font_size : Z) (w : World)
  : (string * option Font) * World
  by wf (Z.to_nat (font_size - 10)) lt :=
adjust_loop P text font_path max_width max_height font_size w
  with Z_gt_dec font_size 10 => {
  | left _ =>
      let '(font, w') := load_font P font_path font_size w in
      let formatted_text := split_text_into_lines P text (max_width - 200) font in
      if text_fits_on_page P formatted_text font (max_width - 200) (max_height - 200)
      then ((formatted_text, font), w')
      else adjust_loop P text font_path max_width max_height (font_size - 1) w'
  | right _ => (("", None), w) }.
Proof. lia. Qed.

Definition adjust_font_size (P : Pillow) (text font_path : string)
  (max_width max_height : Z) : M (string * option Font) :=
  adjust_loop P text font_path max_width max_height 60.

(** The local variables of [draw_text] that change from line to line. *)
Record Cursor := {
  cur_y : Z;
  last_was_heading : bool;
  previous_line : string
}.

(** The body of [for line in lines] in [draw_text]; [drawn_lines] is the
    reference held by the variable of that name. *)
Definition draw_line (x : Z) (heading_font font : Font) (font_color : string)
  (drawn_lines : loc) (c : Cursor) (line : string) : M Cursor :=
  if String.eqb (Str.strip line) "" then
    mret {| cur_y := cur_y c + (size font + 8);
            last_was_heading := last_was_heading c;
            previous_line := previous_line c |}
  else
    s ← read_set drawn_lines;
    if decide (line ∈ s) then mret c
    else if Str.startswith line "## " then
      emit (DrawText x (cur_y c) (Str.drop 3 line) heading_font font_color);;
      set_add drawn_lines line;;
      mret {| cur_y := cur_y c + (size heading_font + 12);
              last_was_heading := true;
              previous_line := line |}
    else if String.eqb (Str.strip (previous_line c)) (Str.strip line) then mret c
    else if Str.startswith line "**" && Str.endswith line "**" then
      emit (DrawText x (cur_y c) (Str.slice_2_m2 line) font font_color);;
      set_add drawn_lines line;;
      mret {| cur_y := cur_y c + (size font + 8);
              last_was_heading := false;
              previous_line := line |}
    else
      emit (DrawText x (cur_y c) line font font_color);;
      set_add drawn_lines line;;
      mret {| cur_y := cur_y c + (size font + 8);
              last_was_heading := last_was_heading c;
              previous_line := line |}.

(** [previous_lines] is [None] when the caller omits the argument. The
    result is the final [y] and the reference [drawn_lines]. *)
Definition draw_text (formatted_text : string) (x y : Z)
  (heading_font font : Font) (font_color : string)
  (previous_lines : option loc) : M (Z * loc) :=
  let previous_lines := default draw_text_default previous_lines in
  let lines := Str.split_nl formatted_text in
  let drawn_lines := previous_lines in
  c ← for_each (draw_line x heading_font font font_color drawn_lines) lines
        {| cur_y := y; last_was_heading := false; previous_line := "" |};
  mret (cur_y c, drawn_lines).

(** The result is [None] for Python's [None], otherwise the pair
    [(output_path, drawn_lines)]. *)
Definition text_to_handwriting (P : Pillow) (text font_path output_path : string)
  (font_color : string) (previous_texts : option loc)
  : M (option (string * loc)) :=
  let previous_texts := default text_to_handwriting_default previous_texts in
  let a4_size := (2000, 3000) in
  create_image a4_size;;
  heading_font ← load_font P font_path 120;
  font ← load_font P font_path 100;
  match heading_font, font with
  | Some heading_font, Some _ =>
      '(formatted_text, font) ← adjust_font_size P text font_path (fst a4_size) (snd a4_size);
      match font with
      | Some font =>
          if String.eqb formatted_text "" then
            emit (StError could_not_format);; mret None
          else
            '(_, drawn_lines) ← draw_text formatted_text 100 100 heading_font font
                                  font_color (Some previous_texts);
            emit (Save output_path);;
            mret (Some (output_path, drawn_lines))
      | None => emit (StError could_not_format);; mret None
      end
  | _, _ => mret None
  end.

(** ** A concrete environment

    A fixed-pitch font: every character is half the font size wide and a
    line is as high as the font size; every font file can be opened. With
    [font=None] Pillow falls back to its built-in font, taken at size 10. *)
Definition mono_bbox (font : option Font) (text : string) : BBox :=
  let sz := match font with Some f => size f | None => 10 end in
  {| bb_left := 0; bb_top := 0;
     bb_right := sz * Z.of_nat (String.length text) / 2;
     bb_bottom := if String.eqb text "" then 0 else sz |}.

Definition mono : Pillow :=
  {| textbbox := mono_bbox; font_available := λ _, true |}.

(** ** Vocabulary of the statements *)

(** A line of the raw text without its heading marker, if it has one. *)
Definition strip_marker (line : string) : string :=
  if Str.startswith line "## " then Str.drop 3 line else line.

(** The words of a raw text, line by line, the marker of each heading line
    left out. *)
Definition content_words (text : string) : list string :=
  flat_map (λ line, Str.split (strip_marker line)) (Str.split_nl text).

(** [bbox[2] - bbox[0]] of a line, as the wrapper computes it. *)
Definition line_width (P : Pillow) (font : option Font) (line : string) : Z :=
  bbox_width (textbbox P font line).

(** The font [load_font] returns, and what the call leaves in the trace. *)
Definition loaded_font (P : Pillow) (font_path : string) (font_size : Z)
  : option Font :=
  if font_available P font_path
  then Some {| path := font_path; size := font_size |}
  else None.

Definition load_events (P : Pillow) (font_path : string) (font_size : Z)
  : list Event :=
  Truetype font_path font_size ::
  (if font_available P font_path then [] else [StError font_not_found]).

(** What one round of the adapter's loop computes at [font_size]. *)
Definition wrapped_at (P : Pillow) (text font_path : string) (max_width : Z)
  (font_size : Z) : string :=
  split_text_into_lines P text (max_width - 200)
    (loaded_font P font_path font_size).

Definition fits_at (P : Pillow) (text font_path : string)
  (max_width max_height : Z) (font_size : Z) : bool :=
  text_fits_on_page P (wrapped_at P text font_path max_width font_size)
    (loaded_font P font_path font_size) (max_width - 200) (max_height - 200).

(** The sizes [s], [s - 1], ..., [11]. *)
Definition sizes_down_from (s : Z) : list Z := reverse (seqZ 11 (s - 10)).

(** A linear search: the candidates tried, in order, and the first one
    that passes, if any. *)
Fixpoint search (ok : Z → bool) (candidates : list Z) : list Z * option Z :=
  match candidates with
  | [] => ([], None)
  | k :: rest =>
      if ok k then ([k], Some k)
      else let '(tried, found) := search ok rest in (k :: tried, found)
  end.

(** The composer loads the font at 120 and 100 only; a load at 60 is the
    first thing the adapter does. *)
Definition adapter_invoked (font_path : string) (t : list Event) : Prop :=
  Truetype font_path 60 ∈ t.

Definition layout_failure_reported (t : list Event) : Prop :=
  StError could_not_format ∈ t.

(** The behaviour asked of the composer on empty text: refuse before the
    adapter runs, and not with the message of a layout failure. *)
Definition rejected_before_adapter (font_path : string) (t : list Event)
  : Prop :=
  ¬ adapter_invoked font_path t ∧ ¬ layout_failure_reported t.

(** The local variables of [draw_text] when its loop starts. *)
Definition start_cursor (y : Z) : Cursor :=
  {| cur_y := y; last_was_heading := false; previous_line := "" |}.

(** The world after [draw.text] has put [e] on the page and
    [drawn_lines.add(line)] has updated the set object at [l]. *)
Definition record_drawn (w : World) (e : Event) (l : loc) (line : string)
  : World :=
  {| trace := trace w ++ [e];
     sets := <[l := {[line]} ∪ sets w !!! l]> (sets w) |}.

(** A line that the renderer passes over on account of the set [seen]. *)
Definition already_drawn (seen : gset string) (line : string) : Prop :=
  Str.strip line ≠ "" ∧ line ∈ seen.

#[global] Instance already_drawn_dec seen line : Decision (already_drawn seen line).
Proof. unfold already_drawn. apply _. Defined.

(** The world after further events. *)
Definition add_events (w : World) (es : list Event) : World :=
  {| trace := trace w ++ es; sets := sets w |}.

(** Sample inputs: the raw text ["## Title\nHello world"], a body font and
    a heading font. *)
Definition title_and_hello : string :=
  "## Title" +:+ Str.nl +:+ "Hello world".

Definition font60 : Font := {| path := "font.ttf"; size := 60 |}.
Definition font120 : Font := {| path := "font.ttf"; size := 120 |}.

(** A word of 400 characters. *)
Definition long_word : string :=
  Eval vm_compute in String.concat "" (replicate 40 "abcdefghij").

(** ** The page of the application

    The script below the function definitions, from the word limit on.
    The values the Streamlit widgets return on a run ([user_text],
    [font_selection], [font_color] and whether the button was pressed) are
    arguments. *)

(** [previous_texts = set()]: a new set object. *)
Definition new_set : M loc :=
  λ w, let l := fresh (dom (sets w)) in
       (l, {| trace := trace w; sets := <[l := ∅]> (sets w) |}).

(** [s.update(t)] on the set objects at [l] and [l']. *)
Definition set_update (l l' : loc) : M unit :=
  λ w, (tt, {| trace := trace w;
               sets := <[l := sets w !!! l ∪ sets w !!! l']> (sets w) |}).

Definition available_fonts : gmap string string :=
  list_to_map
    [("Cedarville Cursive", "fonts/CedarvilleCursive-Regular.ttf");
     ("Patrick Hand", "fonts/PatrickHand-Regular.ttf");
     ("Permanent Marker", "fonts/PermanentMarker-Regular.ttf");
     ("Dancing Script", "fonts/DancingScript-VariableFont_wght.ttf");
     ("Quicksand", "fonts/Quicksand-VariableFont_wght.ttf");
     ("Sacramento", "fonts/Sacramento-Regular.ttf");
     ("Satisfy", "fonts/Satisfy-Regular.ttf");
     ("The Girl Next Door", "fonts/TheGirlNextDoor-Regular.ttf")].

Definition too_many_words : string := "Please enter no more than 1000 words.".
Definition please_enter_text : string :=
  "Please enter text or upload a text file.".

(** How a run of the page ends. [Displayed p] stands for the calls that
    show and offer the image at [p] ([st.success], [Image.open],
    [st.image], [st.download_button]); [Raised] for an exception that
    leaves the script. *)
Inductive Outcome :=
| TooManyWords
| Idle
| NoText
| Displayed (output_image_path : string)
| NotDisplayed
| Raised (exn : string).

Definition convert_page (P : Pillow) (user_text font_selection font_color : string)
  (button : bool) : M Outcome :=
  if negb (String.eqb user_text "")
     && (1000 <? Z.of_nat (length (Str.split user_text)))
  then emit (StError too_many_words);; mret TooManyWords
  else
    previous_texts ← new_set;
    if button then
      if negb (String.eqb user_text "") then
        match available_fonts !! font_selection with
        | None => mret (Raised "KeyError")
        | Some selected_font_path =>
            r ← text_to_handwriting P user_text selected_font_path
                  "handwriting_output.jpg" font_color (Some previous_texts);
            match r with
            | None => mret (Raised "TypeError")
            | Some (output_image_path, drawn_lines) =>
                set_update previous_texts drawn_lines;;
                if negb (String.eqb output_image_path "")
                then mret (Displayed output_image_path)
                else mret NotDisplayed
            end
        end
      else emit (StError please_enter_text);; mret NoText
    else mret Idle.

(** ** Further vocabulary *)

(** The height the fit checker has accumulated after [lines]. *)
Definition stacked_height (P : Pillow) (font : option Font)
  (lines : list string) : Z :=
  foldr (λ line acc, bbox_height (textbbox P font line) + 8 + acc) 0 lines.

(** What a line of the wrapper's output can be: an empty line, the rest of
    a heading line of [text], or words joined by single spaces that are a
    single word or fit in [max_width]. *)
Definition wrapped_line (P : Pillow) (max_width : Z) (font : option Font)
  (text : string) (l : string) : Prop :=
  l = "" ∨
  (∃ line, line ∈ Str.split_nl text ∧ Str.startswith line "## " = true ∧
           l = Str.drop 3 line) ∨
  (∃ ws, ws ≠ [] ∧ Forall (λ w, Str.is_word w = true) ws ∧
         l = Str.join " " ws ∧
         (length ws = 1%nat ∨ line_width P font l ≤ max_width)).

(** What [current_line] holds between two words: nothing, one word, or
    words that fit together. *)
Definition pending_line (P : Pillow) (max_width : Z) (font : option Font)
  (current_line : list string) : Prop :=
  current_line = [] ∨ length current_line = 1%nat
  ∨ line_width P font (Str.join " " current_line) ≤ max_width.

(** A [draw.text] call at abscissa [x] in colour [fill] with one of the two
    fonts. *)
Definition draws_with (x : Z) (heading_font font : Font) (fill : string)
  (e : Event) : Prop :=
  ∃ y text fnt,
    e = DrawText x y text fnt fill ∧ (fnt = heading_font ∨ fnt = font).

(** The ordinates of the [draw.text] calls in a trace. *)
Definition draw_ys (es : list Event) : list Z :=
  omap (λ e, match e with DrawText _ y _ _ _ => Some y | _ => None end) es.

(** Events that put something on the page or on disk. *)
Definition is_output (e : Event) : bool :=
  match e with
  | DrawText _ _ _ _ _ | Save _ => true
  | _ => false
  end.

(** Further sample inputs: a word of 61 characters, and the fixed-pitch
    environment with no font file. *)
Definition word61 : string :=
  Eval vm_compute in String.concat "" (replicate 61 "a").

Definition mono_without_fonts : Pillow :=
  {| textbbox := mono_bbox; font_available := λ _, false |}.

(** * Properties *)

(** ** The string methods on examples *)

Example split_nl_ex :
  Str.split_nl ("ab" +:+ Str.nl +:+ Str.nl +:+ "c") = ["ab"; ""; "c"].
Proof. reflexivity. Qed.

Example split_ex : Str.split "  ab   c d " = ["ab"; "c"; "d"].
Proof. reflexivity. Qed.

Example strip_ex : Str.strip "  a b  " = "a b".
Proof. reflexivity. Qed.

Example slice_ex :
  Str.slice_2_m2 "**bold**" = "bold" ∧ Str.slice_2_m2 "***" = "".
Proof. split; reflexivity. Qed.

Example endswith_ex :
  Str.endswith "**bold**" "**" = true ∧ Str.endswith "*" "**" = false.
Proof. split; reflexivity. Qed.

(** ** Facts about the string methods *)

Module StrFacts.
Import Str.

Lemma sapp_cons c s t : String c s +:+ t = String c (s +:+ t).
Proof. reflexivity. Qed.

Lemma sapp_nil_l s : "" +:+ s = s.
Proof. reflexivity. Qed.

Lemma sapp_nil_r s : s +:+ "" = s.
Proof. induction s as [|c s IH]; [done|]. by rewrite sapp_cons, IH. Qed.

Lemma sapp_assoc s t u : (s +:+ t) +:+ u = s +:+ (t +:+ u).
Proof. induction s as [|c s IH]; [done|]. by rewrite !sapp_cons, IH. Qed.

Lemma eqb_empty_cons c s : String.eqb (String c s) "" = false.
Proof. reflexivity. Qed.

Lemma eqb_nonempty s : s ≠ "" → String.eqb s "" = false.
Proof. by destruct s. Qed.

Lemma sapp_nonempty_r s c t : s +:+ String c t ≠ "".
Proof. by destruct s. Qed.

Lemma isspace_newline : isspace newline = true.
Proof. reflexivity. Qed.

Lemma flush_nonempty cur : cur ≠ "" → flush cur = [cur].
Proof. intros H. unfold flush. by rewrite eqb_nonempty. Qed.

(** *** [split_nl] and [join] *)

Lemma split_nl_nonempty s : split_nl s ≠ [].
Proof.
  destruct s as [|c s]; [done|]. simpl.
  destruct (Ascii.eqb c newline); [done|]. by destruct (split_nl s).
Qed.

Lemma join_cons2 sep x y l :
  join sep (x :: y :: l) = x +:+ sep +:+ join sep (y :: l).
Proof. reflexivity. Qed.

Lemma join_singleton sep x : join sep [x] = x.
Proof. reflexivity. Qed.

Lemma join_cons_char sep c x l :
  join sep (String c x :: l) = String c (join sep (x :: l)).
Proof. destruct l; reflexivity. Qed.

(** ["\n".join(s.split('\n')) == s] *)
Lemma join_split_nl s : join nl (split_nl s) = s.
Proof.
  induction s as [|c s IH]; [done|]. simpl.
  destruct (Ascii.eqb_spec c newline) as [->|Hc].
  - destruct (split_nl s) as [|l ls] eqn:E; [by apply split_nl_nonempty in E|].
    rewrite join_cons2, IH. reflexivity.
  - destruct (split_nl s) as [|l ls] eqn:E; [by apply split_nl_nonempty in E|].
    by rewrite join_cons_char, IH.
Qed.

Lemma split_nl_no_newline s : no_newline s = true → split_nl s = [s].
Proof.
  induction s as [|c s IH]; [done|]. simpl.
  destruct (Ascii.eqb c newline); [done|]. simpl. intros H. by rewrite IH.
Qed.

(** *** [split] *)

Lemma no_space_app s t : no_space (s +:+ t) = no_space s && no_space t.
Proof.
  induction s as [|c s IH]; [done|]. rewrite sapp_cons. simpl.
  rewrite IH. by rewrite andb_assoc.
Qed.

Lemma no_space_no_newline s : no_space s = true → no_newline s = true.
Proof.
  induction s as [|c s IH]; [done|]. simpl.
  intros [Hc Hs]%andb_prop. rewrite (IH Hs), andb_true_r.
  destruct (Ascii.eqb_spec c newline) as [->|]; [done|done].
Qed.

Lemma is_word_nonempty w : is_word w = true → w ≠ "".
Proof. by destruct w. Qed.

Lemma is_word_no_space w : is_word w = true → no_space w = true.
Proof. unfold is_word. by intros [_ ?]%andb_prop. Qed.

(** Reading on through a stretch without whitespace extends the word. *)
Lemma split_go_no_space cur w s :
  no_space w = true → split_go cur (w +:+ s) = split_go (cur +:+ w) s.
Proof.
  revert cur. induction w as [|c w IH]; intros cur H.
  - by rewrite sapp_nil_r.
  - simpl in H. apply andb_prop in H as [Hc Hw].
    rewrite sapp_cons. simpl. apply negb_true_iff in Hc. rewrite Hc.
    rewrite IH by done. by rewrite sapp_assoc.
Qed.

(** A whitespace character ends what precedes it. *)
Lemma split_go_app_space cur a c b :
  isspace c = true →
  split_go cur (a +:+ String c b) = split_go cur a ++ split b.
Proof.
  intros Hc. revert cur. induction a as [|d a IH]; intros cur.
  - rewrite sapp_nil_l. simpl. by rewrite Hc.
  - rewrite sapp_cons. simpl. destruct (isspace d).
    + rewrite IH. by rewrite (assoc_L (++)).
    + apply IH.
Qed.

Lemma split_app_space a c b :
  isspace c = true → split (a +:+ String c b) = split a ++ split b.
Proof. apply split_go_app_space. Qed.

Lemma split_word w : is_word w = true → split w = [w].
Proof.
  intros H. unfold split. rewrite <-(sapp_nil_r w) at 1.
  rewrite split_go_no_space by by apply is_word_no_space.
  simpl. rewrite sapp_nil_l. by apply flush_nonempty, is_word_nonempty.
Qed.

(** [" ".join(ws).split() == ws] for words [ws]. *)
Lemma split_join_words ws :
  Forall (λ w, is_word w = true) ws → split (join " " ws) = ws.
Proof.
  induction ws as [|w [|w' ws] IH]; intros Hws.
  - done.
  - rewrite join_singleton. apply split_word. by inversion Hws.
  - rewrite join_cons2.
    change (" " +:+ join " " (w' :: ws)) with (String " " (join " " (w' :: ws))).
    inversion Hws; subst.
    rewrite split_app_space by done. rewrite IH by done. by rewrite split_word.
Qed.

Lemma split_go_words cur s :
  no_space cur = true → Forall (λ w, is_word w = true) (split_go cur s).
Proof.
  revert cur. induction s as [|c s IH]; intros cur Hcur; simpl.
  - unfold flush. destruct (String.eqb_spec cur ""); [done|].
    constructor; [|done]. unfold is_word. by rewrite eqb_nonempty, Hcur.
  - destruct (isspace c) eqn:Hc.
    + apply Forall_app. split; [|by apply IH].
      unfold flush. destruct (String.eqb_spec cur ""); [done|].
      constructor; [|done]. unfold is_word. by rewrite eqb_nonempty, Hcur.
    + apply IH. rewrite no_space_app, Hcur. simpl. by rewrite Hc.
Qed.

(** Every element of [s.split()] is a word. *)
Lemma split_words s : Forall (λ w, is_word w = true) (split s).
Proof. by apply split_go_words. Qed.

(** ["\n".join(ls).split()] is the words of the lines, in order. *)
Lemma split_join_nl ls : split (join nl ls) = flat_map split ls.
Proof.
  induction ls as [|l [|l' ls] IH].
  - done.
  - rewrite join_singleton. simpl. by rewrite app_nil_r.
  - rewrite join_cons2.
    change (nl +:+ join nl (l' :: ls)) with (String newline (join nl (l' :: ls))).
    rewrite split_app_space by done. by rewrite IH.
Qed.

Lemma split_split_nl s : split s = flat_map split (split_nl s).
Proof. by rewrite <-split_join_nl, join_split_nl. Qed.

(** *** [strip] and [startswith] *)

Lemma rstrip_empty s : rstrip s = "" → all_space s = true.
Proof.
  induction s as [|c s IH]; [done|]. simpl.
  destruct (String.eqb_spec (rstrip s) "") as [E|]; [|done].
  destruct (isspace c); [|done]. intros _. by rewrite IH.
Qed.

Lemma lstrip_all_space s : all_space (lstrip s) = true → all_space s = true.
Proof.
  induction s as [|c s IH]; [done|]. simpl.
  destruct (isspace c) eqn:Hc; simpl; [done|]. by rewrite Hc.
Qed.

Lemma strip_empty s : strip s = "" → all_space s = true.
Proof. intros H. by apply lstrip_all_space, rstrip_empty. Qed.

Lemma split_go_all_space cur s : all_space s = true → split_go cur s = flush cur.
Proof.
  revert cur. induction s as [|c s IH]; intros cur; [done|]. simpl.
  intros [Hc Hs]%andb_prop. rewrite Hc, IH by done. apply app_nil_r.
Qed.

(** A blank line has no words and is not a heading. *)
Lemma split_blank s : strip s = "" → split s = [].
Proof. intros H. by apply split_go_all_space, strip_empty. Qed.

Lemma startswith_blank s : strip s = "" → startswith s "## " = false.
Proof.
  intros H%strip_empty. destruct s as [|c s]; [done|].
  simpl in H. apply andb_prop in H as [Hc _].
  unfold startswith. cbn [String.prefix].
  by destruct (ascii_dec "#" c) as [<-|].
Qed.

Lemma rstrip_no_space s : no_space s = true → rstrip s = s.
Proof.
  induction s as [|c s IH]; [done|]. simpl.
  intros [Hc Hs]%andb_prop. rewrite IH by done.
  apply negb_true_iff in Hc. by rewrite Hc, andb_false_r.
Qed.

Lemma strip_word w : is_word w = true → strip w = w.
Proof.
  intros H. pose proof (is_word_no_space _ H) as Hs.
  unfold strip. destruct w as [|c w]; [done|]. simpl in Hs |- *.
  apply andb_prop in Hs as [Hc Hw]. apply negb_true_iff in Hc. rewrite Hc.
  apply rstrip_no_space. simpl. by rewrite Hc, Hw.
Qed.

Lemma startswith_no_space w : no_space w = true → startswith w "## " = false.
Proof.
  intros H. unfold startswith.
  destruct w as [|a [|b [|c w]]]; cbn [String.prefix]; try done.
  - by destruct (ascii_dec "#" a).
  - destruct (ascii_dec "#" a); [|done]. by destruct (ascii_dec "#" b).
  - destruct (ascii_dec "#" a); [|done]. destruct (ascii_dec "#" b); [|done].
    destruct (ascii_dec " " c) as [<-|]; [|done].
    simpl in H. by rewrite !andb_false_r in H.
Qed.

End StrFacts.

(** ** Running computations *)

Lemma run_bind {A B} (m : M A) (f : A → M B) w :
  (m ≫= f) w = f (m w).1 (m w).2.
Proof. unfold mbind, M_bind. by destruct (m w). Qed.

Lemma run_ret {A} (a : A) w : (mret a : M A) w = (a, w).
Proof. reflexivity. Qed.

Lemma run_emit e w : emit e w = (tt, add_events w [e]).
Proof. reflexivity. Qed.

Lemma add_events_app w es1 es2 :
  add_events (add_events w es1) es2 = add_events w (es1 ++ es2).
Proof. unfold add_events. simpl. by rewrite (assoc_L (++)). Qed.

Lemma add_events_nil w : add_events w [] = w.
Proof. unfold add_events. rewrite app_nil_r. by destruct w. Qed.

Lemma load_font_run P font_path k w :
  load_font P font_path k w
  = (loaded_font P font_path k, add_events w (load_events P font_path k)).
Proof.
  unfold load_font, loaded_font, load_events.
  rewrite run_bind, run_emit. cbn [fst snd].
  destruct (font_available P font_path); [done|].
  by rewrite run_bind, run_emit, run_ret, add_events_app.
Qed.

Ltac run :=
  repeat (rewrite ?run_bind, ?run_ret, ?run_emit, ?load_font_run,
            ?add_events_app;
          cbn [fst snd app]).

(** ** The word wrapper *)

Section wrapper.
Context (P : Pillow) (max_width : Z) (font : option Font).
Import Str StrFacts.

Local Abbreviation words := (Forall (λ w, is_word w = true)).
Local Abbreviation word_step := (wrap_word P max_width font).
Local Abbreviation paragraph_step := (wrap_paragraph P max_width font).

Lemma wrap_word_fits lines current_line word :
  line_width P font (join " " (current_line ++ [word])) ≤ max_width →
  word_step (lines, current_line) word = (lines, current_line ++ [word]).
Proof.
  intros H. unfold wrap_word, line_width in *.
  destruct (Z.gtb_spec (bbox_width (textbbox P font (join " " (current_line ++ [word]))))
              max_width); [lia|done].
Qed.

Lemma wrap_word_overflow lines current_line word :
  line_width P font (join " " (current_line ++ [word])) > max_width →
  word_step (lines, current_line) word
  = (lines ++ [join " " current_line], [word]).
Proof.
  intros H. unfold wrap_word, line_width in *.
  destruct (Z.gtb_spec (bbox_width (textbbox P font (join " " (current_line ++ [word]))))
              max_width); [|lia].
  by rewrite removelast_last.
Qed.

Lemma flat_map_split_join lines current_line :
  words current_line →
  flat_map split (lines ++ [join " " current_line])
  = flat_map split lines ++ current_line.
Proof.
  intros H. rewrite flat_map_app. simpl.
  by rewrite app_nil_r, split_join_words.
Qed.

(** The inner loop only appends to [lines], and what it appends, followed
    by what it leaves in [current_line], is what was pending followed by
    the words read. *)
Lemma wrap_words_spec ws lines current_line :
  words current_line → words ws →
  ∃ new,
    fst (fold_left word_step ws (lines, current_line)) = lines ++ new ∧
    flat_map split new ++ snd (fold_left word_step ws (lines, current_line))
    = current_line ++ ws ∧
    words (snd (fold_left word_step ws (lines, current_line))).
Proof.
  revert lines current_line.
  induction ws as [|w ws IH]; intros lines cur Hcur Hws.
  - exists []. simpl. by rewrite !app_nil_r.
  - inversion Hws as [|? ? Hw Hws']; subst. cbn [fold_left].
    destruct (Z_le_gt_dec (line_width P font (join " " (cur ++ [w]))) max_width)
      as [Hfit|Hover].
    + rewrite wrap_word_fits by done.
      destruct (IH lines (cur ++ [w])) as (new & E1 & E2 & E3);
        [by apply Forall_app; split; [|constructor]|done|].
      exists new. by rewrite E1, E2, <-(assoc_L (++)).
    + rewrite wrap_word_overflow by done.
      destruct (IH (lines ++ [join " " cur]) [w]) as (new & E1 & E2 & E3);
        [by constructor|done|].
      exists (join " " cur :: new). rewrite E1. split_and!.
      * by rewrite <-(assoc_L (++)).
      * simpl. rewrite split_join_words by done.
        by rewrite <-(assoc_L (++)), E2.
      * done.
Qed.

(** When every line tried fits, the inner loop only accumulates. *)
Lemma wrap_words_fit ws lines current_line :
  (∀ k, (0 < k ≤ length ws)%nat →
        line_width P font (join " " (current_line ++ take k ws)) ≤ max_width) →
  fold_left word_step ws (lines, current_line) = (lines, current_line ++ ws).
Proof.
  revert current_line. induction ws as [|w ws IH]; intros cur H; cbn [fold_left].
  - by rewrite app_nil_r.
  - rewrite wrap_word_fits by (apply (H 1%nat); simpl; lia).
    rewrite IH; [by rewrite <-(assoc_L (++))|].
    intros k Hk. rewrite <-(assoc_L (++)). apply (H (S k)). simpl. lia.
Qed.

Lemma wrap_lines_single text :
  no_newline text = true →
  wrap_lines P text max_width font = fst (paragraph_step ([], []) text).
Proof. intros H. unfold wrap_lines. by rewrite split_nl_no_newline. Qed.

(** One paragraph keeps every word read so far, in order: [pre] stands for
    the words already flushed exactly once. *)
Lemma wrap_paragraph_keeps line lines current_line pre :
  words current_line →
  pre `sublist_of` flat_map split lines →
  pre ++ current_line `sublist_of` flat_map split lines →
  words (snd (paragraph_step (lines, current_line) line)) ∧
  ∃ pre',
    (pre ++ current_line) ++ split (strip_marker line)
    = pre' ++ snd (paragraph_step (lines, current_line) line) ∧
    pre' `sublist_of` flat_map split (fst (paragraph_step (lines, current_line) line)) ∧
    pre' ++ snd (paragraph_step (lines, current_line) line)
      `sublist_of` flat_map split (fst (paragraph_step (lines, current_line) line)).
Proof.
  intros Hcur Hpre Hall. unfold wrap_paragraph, strip_marker.
  destruct (String.eqb_spec (strip line) "") as [Hblank|Hblank].
  - rewrite startswith_blank, split_blank by done. simpl.
    split; [done|]. exists pre.
    rewrite flat_map_app. simpl. by rewrite !app_nil_r.
  - destruct (startswith line "## ") eqn:Hhead.
    + split; [by destruct current_line|].
      exists ((pre ++ current_line) ++ split (drop 3 line)).
      destruct current_line as [|c cs]; cbn [fst snd].
      * rewrite !app_nil_r, flat_map_app. cbn [flat_map]. rewrite !app_nil_r.
        split_and!; [done|by apply sublist_app..].
      * rewrite !app_nil_r, flat_map_app, flat_map_split_join by done.
        cbn [flat_map]. rewrite !app_nil_r.
        split_and!; [done|by repeat apply sublist_app..].
    + destruct (wrap_words_spec (split line) lines current_line)
        as (new & E1 & E2 & E3); [done|apply split_words|].
      destruct (fold_left word_step (split line) (lines, current_line))
        as [lines' cur'] eqn:E. simpl in E1, E2, E3. subst lines'.
      assert ((pre ++ current_line) ++ split line
              = (pre ++ flat_map split new) ++ cur') as Heq.
      { by rewrite <-!(assoc_L (++)), E2. }
      destruct cur' as [|c cs]; cbn [fst snd].
      * split; [done|]. exists (pre ++ flat_map split new).
        rewrite Heq, !app_nil_r, flat_map_app.
        split_and!; [done|by apply sublist_app..].
      * split; [done|]. exists (pre ++ flat_map split new).
        rewrite Heq, flat_map_split_join, flat_map_app by done.
        split_and!; [done|by apply sublist_inserts_r, sublist_app|].
        by repeat apply sublist_app.
Qed.

Lemma wrap_paragraphs_keep ls lines current_line pre :
  words current_line →
  pre `sublist_of` flat_map split lines →
  pre ++ current_line `sublist_of` flat_map split lines →
  (pre ++ current_line) ++ flat_map (λ line, split (strip_marker line)) ls
    `sublist_of`
  flat_map split (fst (fold_left paragraph_step ls (lines, current_line))).
Proof.
  revert lines current_line pre.
  induction ls as [|l ls IH]; intros lines cur pre Hcur Hpre Hall.
  - simpl. by rewrite app_nil_r.
  - cbn [fold_left flat_map].
    destruct (wrap_paragraph_keeps l lines cur pre) as (Hw & pre' & E & H1 & H2);
      [done..|].
    destruct (paragraph_step (lines, cur) l) as [lines' cur'].
    simpl in Hw, E, H1, H2.
    rewrite (assoc_L (++)), E. by apply IH.
Qed.

(** C2 (as the code behaves). A single word wider than [max_width] comes
    back unsplit on a line of its own, but the wrapper puts an empty line
    before it: the overflow branch flushes the emptied [current_line]
    without the test for emptiness that the other two flushes make. *)
Theorem wrap_oversized_word w :
  is_word w = true →
  line_width P font w > max_width →
  wrap_lines P w max_width font = [""; w] ∧
  split_text_into_lines P w max_width font = nl +:+ w.
Proof.
  intros Hw Hwide.
  assert (wrap_lines P w max_width font = [""; w]) as E.
  { rewrite wrap_lines_single
      by by apply no_space_no_newline, is_word_no_space.
    unfold wrap_paragraph.
    rewrite strip_word, (eqb_nonempty w), startswith_no_space, split_word
      by auto using is_word_nonempty, is_word_no_space.
    cbn [fold_left]. by rewrite wrap_word_overflow. }
  split; [done|]. unfold split_text_into_lines. by rewrite E.
Qed.

(** C5 (amended). A raw text without newline that is not a heading, each
    prefix of whose words fits when joined by single spaces, is returned
    with every run of whitespace collapsed to one space and the whitespace
    at both ends removed; a text already of that form comes back
    unchanged. *)
Theorem wrap_single_line text :
  no_newline text = true →
  startswith text "## " = false →
  (∀ k, (0 < k ≤ length (split text))%nat →
        line_width P font (join " " (take k (split text))) ≤ max_width) →
  split_text_into_lines P text max_width font = join " " (split text).
Proof.
  intros Hnl Hhead Hfit. unfold split_text_into_lines.
  rewrite wrap_lines_single by done. unfold wrap_paragraph.
  destruct (String.eqb_spec (strip text) "") as [Hblank|Hblank].
  - by rewrite split_blank.
  - rewrite Hhead, wrap_words_fit by done.
    rewrite app_nil_l. by destruct (split text).
Qed.

(** What the wrapper keeps whatever the text: its words, the marker of
    each heading line left out, occur in their order among the words of
    the output, so none is lost and none changes place. For a raw text
    without newline they are exactly the words of the output. *)
Theorem wrap_keeps_words text :
  content_words text
    `sublist_of` split (split_text_into_lines P text max_width font) ∧
  (no_newline text = true →
   split (split_text_into_lines P text max_width font) = content_words text).
Proof.
  unfold split_text_into_lines. rewrite split_join_nl. split.
  - apply (wrap_paragraphs_keep (split_nl text) [] [] []); by constructor.
  - intros Hnl. unfold content_words.
    rewrite wrap_lines_single, split_nl_no_newline by done.
    cbn [flat_map]. rewrite app_nil_r.
    unfold wrap_paragraph, strip_marker.
    destruct (String.eqb_spec (strip text) "") as [Hblank|Hblank].
    + by rewrite startswith_blank, split_blank.
    + destruct (startswith text "## "); [simpl; by rewrite app_nil_r|].
      destruct (wrap_words_spec (split text) [] []) as (new & E1 & E2 & E3);
        [done|apply split_words|].
      destruct (fold_left word_step (split text) ([], [])) as [lines' cur'].
      simpl in E1, E2, E3. subst lines'.
      destruct cur' as [|c cs]; cbn [fst].
      * by rewrite app_nil_r in E2.
      * by rewrite flat_map_split_join.
Qed.

End wrapper.

(** ** The fit checker *)

Section fit_checker.
Context (P : Pillow) (font : option Font) (max_width : Z).

Lemma fits_loop_monotone lines h h' current_height :
  h ≤ h' →
  fits_loop P font max_width h lines current_height = true →
  fits_loop P font max_width h' lines current_height = true.
Proof.
  intros Hh. revert current_height.
  induction lines as [|line rest IH]; intros cur; [done|]. simpl.
  destruct (bbox_width (textbbox P font line) >? max_width); [done|]. simpl.
  destruct (Z.gtb_spec (cur + bbox_height (textbbox P font line)) h); [done|].
  destruct (Z.gtb_spec (cur + bbox_height (textbbox P font line)) h'); [lia|].
  apply IH.
Qed.

(** C8. [text_fits_on_page] is monotone in [max_height]: a text that fits
    under the bound [h] fits under every larger bound [h']. *)
Theorem text_fits_monotone text h h' :
  h < h' →
  text_fits_on_page P text font max_width h = true →
  text_fits_on_page P text font max_width h' = true.
Proof. intros Hh. apply fits_loop_monotone. lia. Qed.

End fit_checker.

(** ** The font-size adapter *)

Section adapter.
Context (P : Pillow) (text font_path : string) (max_width max_height : Z).

Local Abbreviation fits := (fits_at P text font_path max_width max_height).
Local Abbreviation wrapped := (wrapped_at P text font_path max_width).
Local Abbreviation loop := (adjust_loop P text font_path max_width max_height).

Lemma adjust_loop_eq s w :
  loop s w =
  if decide (10 < s) then
    let '(font, w') := load_font P font_path s w in
    let formatted_text := split_text_into_lines P text (max_width - 200) font in
    if text_fits_on_page P formatted_text font (max_width - 200) (max_height - 200)
    then ((formatted_text, font), w')
    else loop (s - 1) w'
  else (("", None), w).
Proof.
  simp adjust_loop.
  destruct (Z_gt_dec s 10), (decide (10 < s)); try lia; by simp adjust_loop.
Qed.

Lemma sizes_down_from_nil s : s ≤ 10 → sizes_down_from s = [].
Proof. intros H. unfold sizes_down_from. by rewrite seqZ_nil by lia. Qed.

Lemma sizes_down_from_cons s :
  10 < s → sizes_down_from s = s :: sizes_down_from (s - 1).
Proof.
  intros H. unfold sizes_down_from.
  replace (s - 10) with ((s - 1 - 10) + 1) at 1 by lia.
  rewrite seqZ_app by lia. rewrite reverse_app.
  by replace (11 + (s - 1 - 10)) with s by lia.
Qed.

(** The loop is a linear search through the sizes from [s] down to 11:
    it loads the font at each size tried and stops at the first that
    fits. *)
Lemma adjust_loop_search s w :
  loop s w =
  let '(tried, found) := search fits (sizes_down_from s) in
  (match found with
   | Some k => (wrapped k, loaded_font P font_path k)
   | None => ("", None)
   end,
   add_events w (flat_map (load_events P font_path) tried)).
Proof.
  remember (Z.to_nat (s - 10)) as n eqn:Hn. revert s w Hn.
  induction n as [|n IH]; intros s w Hn; rewrite adjust_loop_eq.
  - rewrite decide_False, sizes_down_from_nil by lia. simpl.
    unfold add_events. rewrite app_nil_r. by destruct w.
  - rewrite decide_True, sizes_down_from_cons, load_font_run by lia.
    cbn [search]. fold (wrapped s). fold (fits s).
    destruct (fits s) eqn:Hfit.
    + simpl. by rewrite app_nil_r.
    + rewrite IH by lia.
      destruct (search fits (sizes_down_from (s - 1))) as [tried found].
      cbn [flat_map]. unfold add_events. cbn [trace sets].
      by rewrite (assoc_L (++)).
Qed.

Lemma search_all_fail (ok : Z → bool) candidates :
  (∀ k, k ∈ candidates → ok k = false) → search ok candidates = (candidates, None).
Proof.
  induction candidates as [|k rest IH]; intros H; [done|]. simpl.
  rewrite H by left. rewrite IH; [done|]. intros k' Hk'. apply H. by right.
Qed.

Lemma elem_of_sizes_down_from s k : k ∈ sizes_down_from s ↔ 10 < k ≤ s.
Proof.
  unfold sizes_down_from. rewrite elem_of_reverse, elem_of_seqZ. lia.
Qed.

(** When no size from [s] down to 11 fits, the loop has loaded the font
    at each of them, in that order, and returns [("", None)]. *)
Lemma adjust_loop_gives_up s w :
  (∀ k, 10 < k ≤ s → fits k = false) →
  loop s w
  = (("", None), add_events w (flat_map (load_events P font_path) (sizes_down_from s))).
Proof.
  intros H. rewrite adjust_loop_search, search_all_fail; [done|].
  intros k Hk. by apply H, elem_of_sizes_down_from.
Qed.

End adapter.

Lemma draw_text_run formatted_text x y heading_font font font_color previous_lines w :
  draw_text formatted_text x y heading_font font font_color previous_lines w
  = ((cur_y (for_each (draw_line x heading_font font font_color
                         (default draw_text_default previous_lines))
               (Str.split_nl formatted_text) (start_cursor y) w).1,
      default draw_text_default previous_lines),
     (for_each (draw_line x heading_font font font_color
                  (default draw_text_default previous_lines))
        (Str.split_nl formatted_text) (start_cursor y) w).2).
Proof. unfold draw_text. by rewrite run_bind, run_ret. Qed.

(** ** The page composer *)

Example sizes_down_from_60 :
  sizes_down_from 60 =
  [60; 59; 58; 57; 56; 55; 54; 53; 52; 51; 50; 49; 48; 47; 46; 45; 44; 43;
   42; 41; 40; 39; 38; 37; 36; 35; 34; 33; 32; 31; 30; 29; 28; 27; 26; 25;
   24; 23; 22; 21; 20; 19; 18; 17; 16; 15; 14; 13; 12; 11].
Proof. reflexivity. Qed.

Section composer.
Context (P : Pillow) (font_path output_path font_color : string).
Context (previous_texts : option loc).
Hypothesis font_ok : font_available P font_path = true.

Lemma load_events_ok tried :
  flat_map (load_events P font_path) tried = Truetype font_path <$> tried.
Proof.
  unfold load_events. rewrite font_ok.
  induction tried as [|k tried IH]; [done|]. simpl. by rewrite IH.
Qed.

(** With a loadable font the composer creates the page, loads the two
    preview fonts and hands over to the adapter. *)
Lemma text_to_handwriting_run text w :
  text_to_handwriting P text font_path output_path font_color previous_texts w
  = let '((formatted_text, font), w') :=
      adjust_font_size P text font_path 2000 3000
        (add_events w [NewImage 2000 3000; Truetype font_path 120;
                       Truetype font_path 100]) in
    match font with
    | Some font =>
        if String.eqb formatted_text "" then
          (None, add_events w' [StError could_not_format])
        else
          let '((_, drawn_lines), w'') :=
            draw_text formatted_text 100 100
              {| path := font_path; size := 120 |} font font_color
              (Some (default text_to_handwriting_default previous_texts)) w' in
          (Some (output_path, drawn_lines), add_events w'' [Save output_path])
    | None => (None, add_events w' [StError could_not_format])
    end.
Proof.
  unfold text_to_handwriting, create_image. run.
  unfold loaded_font, load_events. rewrite font_ok. run.
  destruct (adjust_font_size _ _ _ _ _ _) as [[formatted_text [font|]] w'];
    cbn [fst snd]; run; [|done].
  destruct (String.eqb formatted_text ""); run; [done|].
  by destruct (draw_text _ _ _ _ _ _ _ _) as [[? ?] ?].
Qed.

Lemma wrapped_at_empty max_width k : wrapped_at P "" font_path max_width k = "".
Proof. reflexivity. Qed.

(** C6. The adapter tries the sizes 60, 59, ..., 11 in this order; when
    the wrapped text fits at none of them it returns [("", None)], and the
    composer then reports the failure through [st.error] and returns
    [None]: nothing is drawn and nothing is saved. *)
Theorem adapter_failure_is_reported text w :
  (∀ k, 10 < k ≤ 60 → fits_at P text font_path 2000 3000 k = false) →
  adjust_font_size P text font_path 2000 3000 w
  = (("", None), add_events w (Truetype font_path <$> sizes_down_from 60)) ∧
  text_to_handwriting P text font_path output_path font_color previous_texts w
  = (None,
     add_events w
       ([NewImage 2000 3000; Truetype font_path 120; Truetype font_path 100]
        ++ (Truetype font_path <$> sizes_down_from 60)
        ++ [StError could_not_format])).
Proof.
  intros Hnone. split.
  - unfold adjust_font_size. by rewrite adjust_loop_gives_up, load_events_ok.
  - rewrite text_to_handwriting_run. unfold adjust_font_size.
    rewrite adjust_loop_gives_up, load_events_ok by done.
    by rewrite !add_events_app.
Qed.

(** C3 (amended). Given empty raw text and a loadable font, the composer
    makes no check of its own: it creates the page, loads the two preview
    fonts and invokes the adapter, which loads the font at 60 (and at
    whatever further sizes it tries) and returns empty formatted text;
    the composer then reports this with the message of a layout failure
    and returns [None], with nothing drawn or saved. *)
Theorem empty_text_reported_as_layout_failure w :
  ∃ tried,
    text_to_handwriting P "" font_path output_path font_color previous_texts w
    = (None,
       add_events w
         ([NewImage 2000 3000; Truetype font_path 120; Truetype font_path 100;
           Truetype font_path 60]
          ++ (Truetype font_path <$> tried)
          ++ [StError could_not_format])).
Proof.
  rewrite text_to_handwriting_run. unfold adjust_font_size.
  rewrite adjust_loop_search, (sizes_down_from_cons 60) by lia.
  cbn [search].
  destruct (fits_at P "" font_path 2000 3000 60).
  - exists []. rewrite load_events_ok, wrapped_at_empty.
    unfold loaded_font. rewrite font_ok. simpl.
    by rewrite !add_events_app.
  - destruct (search _ _) as [tried [k|]]; exists tried;
      rewrite load_events_ok, ?wrapped_at_empty;
      unfold loaded_font; rewrite ?font_ok; simpl;
      by rewrite !add_events_app.
Qed.

(** The composer hands its own set on to the renderer: what it returns is
    the reference it was given, or that of its one default set. *)
Lemma text_to_handwriting_returns_callers_set text w out l :
  (text_to_handwriting P text font_path output_path font_color previous_texts w).1
  = Some (out, l) →
  l = default text_to_handwriting_default previous_texts.
Proof.
  rewrite text_to_handwriting_run.
  destruct (adjust_font_size _ _ _ _ _ _) as [[formatted_text [font|]] w'];
    [|done].
  destruct (String.eqb formatted_text ""); [done|].
  rewrite draw_text_run. cbn [fst snd default from_option id]. congruence.
Qed.

End composer.

(** ** The line renderer *)

Section renderer.
Context (x : Z) (heading_font font : Font) (font_color : string).
Context (drawn_lines : loc).
Import Str StrFacts.

Local Abbreviation step := (draw_line x heading_font font font_color drawn_lines).

Lemma draw_line_blank c line w :
  strip line = "" →
  step c line w
  = ({| cur_y := cur_y c + (size font + 8);
        last_was_heading := last_was_heading c;
        previous_line := previous_line c |}, w).
Proof. intros H. unfold draw_line. by rewrite H. Qed.

Lemma draw_line_seen c line w :
  strip line ≠ "" → line ∈ sets w !!! drawn_lines → step c line w = (c, w).
Proof.
  intros H Hin. unfold draw_line. rewrite eqb_nonempty by done.
  rewrite run_bind. unfold read_set. cbn [fst snd]. by rewrite decide_True.
Qed.

Lemma draw_line_heading c line w :
  strip line ≠ "" → line ∉ sets w !!! drawn_lines →
  startswith line "## " = true →
  step c line w
  = ({| cur_y := cur_y c + (size heading_font + 12);
        last_was_heading := true;
        previous_line := line |},
     record_drawn w (DrawText x (cur_y c) (drop 3 line) heading_font font_color)
       drawn_lines line).
Proof.
  intros H Hin Hhead. unfold draw_line. rewrite eqb_nonempty by done.
  rewrite run_bind. unfold read_set. cbn [fst snd].
  by rewrite decide_False, Hhead by done.
Qed.

Lemma draw_line_repeated c line w :
  strip line ≠ "" → startswith line "## " = false →
  strip (previous_line c) = strip line →
  step c line w = (c, w).
Proof.
  intros H Hhead Hprev. unfold draw_line. rewrite eqb_nonempty by done.
  rewrite run_bind. unfold read_set. cbn [fst snd].
  destruct (decide _); [done|]. by rewrite Hhead, Hprev, String.eqb_refl.
Qed.

Lemma draw_line_body c line w :
  strip line ≠ "" → line ∉ sets w !!! drawn_lines →
  startswith line "## " = false →
  strip (previous_line c) ≠ strip line →
  step c line w
  = ({| cur_y := cur_y c + (size font + 8);
        last_was_heading :=
          if startswith line "**" && endswith line "**" then false
          else last_was_heading c;
        previous_line := line |},
     record_drawn w
       (DrawText x (cur_y c)
          (if startswith line "**" && endswith line "**"
           then slice_2_m2 line else line)
          font font_color)
       drawn_lines line).
Proof.
  intros H Hin Hhead Hprev. unfold draw_line. rewrite eqb_nonempty by done.
  rewrite run_bind. unfold read_set. cbn [fst snd].
  rewrite decide_False, Hhead by done.
  destruct (String.eqb_spec (strip (previous_line c)) (strip line)); [done|].
  by destruct (startswith line "**" && endswith line "**").
Qed.

(** The four ways a line can go: spaced, passed over, drawn as a heading,
    drawn with the body font. *)
Lemma draw_line_cases c line w :
  (strip line = "" ∧
   step c line w
   = ({| cur_y := cur_y c + (size font + 8);
         last_was_heading := last_was_heading c;
         previous_line := previous_line c |}, w)) ∨
  (strip line ≠ "" ∧ step c line w = (c, w)) ∨
  (strip line ≠ "" ∧ (line ∉ sets w !!! drawn_lines) ∧
   step c line w
   = ({| cur_y := cur_y c + (size heading_font + 12);
         last_was_heading := true;
         previous_line := line |},
      record_drawn w
        (DrawText x (cur_y c) (drop 3 line) heading_font font_color)
        drawn_lines line)) ∨
  (strip line ≠ "" ∧ (line ∉ sets w !!! drawn_lines) ∧
   ∃ text lwh,
     step c line w
     = ({| cur_y := cur_y c + (size font + 8);
           last_was_heading := lwh;
           previous_line := line |},
        record_drawn w (DrawText x (cur_y c) text font font_color)
          drawn_lines line)).
Proof.
  destruct (decide (strip line = "")) as [Hb|Hb].
  { left. split; [done|]. by apply draw_line_blank. }
  right.
  destruct (decide (line ∈ sets w !!! drawn_lines)) as [Hin|Hin].
  { left. split; [done|]. by apply draw_line_seen. }
  destruct (startswith line "## ") eqn:Hhead.
  { right. left. split_and!; [done..|]. by apply draw_line_heading. }
  destruct (decide (strip (previous_line c) = strip line)) as [Hp|Hp].
  { left. split; [done|]. by apply draw_line_repeated. }
  right. right. split_and!; [done..|]. eexists _, _. by apply draw_line_body.
Qed.

Lemma record_drawn_lookup w e line :
  sets (record_drawn w e drawn_lines line) !!! drawn_lines
  = {[line]} ∪ sets w !!! drawn_lines.
Proof. unfold record_drawn. simpl. by rewrite lookup_total_insert_eq. Qed.

Lemma record_drawn_other w e line l' :
  l' ≠ drawn_lines →
  sets (record_drawn w e drawn_lines line) !! l' = sets w !! l'.
Proof. intros H. unfold record_drawn. simpl. by rewrite lookup_insert_ne. Qed.

(** One line never removes anything from a set, touches no other set
    object, and only ever extends the trace. *)
Lemma draw_line_grows c line w :
  sets w !!! drawn_lines ⊆ sets (step c line w).2 !!! drawn_lines ∧
  (∀ l', l' ≠ drawn_lines → sets (step c line w).2 !! l' = sets w !! l') ∧
  ∃ es, trace (step c line w).2 = trace w ++ es.
Proof.
  destruct (draw_line_cases c line w)
    as [[_ ->]|[[_ ->]|[(_ & _ & ->)|(_ & _ & text & lwh & ->)]]]; cbn [snd].
  - split_and!; [done..|]. exists []. by rewrite app_nil_r.
  - split_and!; [done..|]. exists []. by rewrite app_nil_r.
  - rewrite record_drawn_lookup. split_and!; [set_solver| |by eexists].
    intros l' Hl'. by apply record_drawn_other.
  - rewrite record_drawn_lookup. split_and!; [set_solver| |by eexists].
    intros l' Hl'. by apply record_drawn_other.
Qed.

(** A line that reaches the page is in the set straight away. *)
Lemma draw_line_records c line w :
  trace (step c line w).2 ≠ trace w →
  line ∈ sets (step c line w).2 !!! drawn_lines.
Proof.
  destruct (draw_line_cases c line w)
    as [[_ ->]|[[_ ->]|[(_ & _ & ->)|(_ & _ & text & lwh & ->)]]]; cbn [snd];
    [done|done|..]; intros _; rewrite record_drawn_lookup; set_solver.
Qed.

Lemma for_each_cons line lines c w :
  for_each step (line :: lines) c w
  = for_each step lines (step c line w).1 (step c line w).2.
Proof. cbn [for_each]. by rewrite run_bind. Qed.

Lemma for_each_app lines1 lines2 c w :
  for_each step (lines1 ++ lines2) c w
  = for_each step lines2 (for_each step lines1 c w).1 (for_each step lines1 c w).2.
Proof.
  revert c w. induction lines1 as [|line lines1 IH]; intros c w; [done|].
  rewrite <-app_comm_cons, !for_each_cons. apply IH.
Qed.

Lemma for_each_grows lines c w :
  sets w !!! drawn_lines ⊆ sets (for_each step lines c w).2 !!! drawn_lines ∧
  (∀ l', l' ≠ drawn_lines → sets (for_each step lines c w).2 !! l' = sets w !! l') ∧
  ∃ es, trace (for_each step lines c w).2 = trace w ++ es.
Proof.
  revert c w. induction lines as [|line lines IH]; intros c w.
  - split_and!; [done..|]. exists []. by rewrite app_nil_r.
  - rewrite for_each_cons.
    destruct (draw_line_grows c line w) as (H1 & H2 & es1 & H3).
    destruct (IH (step c line w).1 (step c line w).2) as (H4 & H5 & es2 & H6).
    split_and!.
    + by etrans.
    + intros l' Hl'. by rewrite H5, H2.
    + exists (es1 ++ es2). by rewrite H6, H3, (assoc_L (++)).
Qed.

(** Lines that are already in the set might as well not be in the text. *)
Lemma for_each_skips_seen (seen : gset string) lines c w :
  seen ⊆ sets w !!! drawn_lines →
  for_each step lines c w
  = for_each step (filter (λ line, ¬ already_drawn seen line) lines) c w.
Proof.
  revert c w. induction lines as [|line lines IH]; intros c w Hseen; [done|].
  rewrite for_each_cons.
  destruct (decide (already_drawn seen line)) as [[Hb Hin]|Hnot].
  - rewrite filter_cons_False by (intros H; apply H; by split).
    rewrite draw_line_seen by set_solver. by apply IH.
  - rewrite filter_cons_True by done. rewrite for_each_cons. apply IH.
    etrans; [done|]. apply draw_line_grows.
Qed.

(** C9. Within one pass the cursor never moves up. A blank line moves it
    down by [font.size + 8]; a line that is drawn moves it down by
    [font.size + 8], or by [heading_font.size + 12] for a heading; a line
    that is passed over leaves it where it is. So it is after every line,
    and after every run of lines, at least where it was before. *)
Theorem cursor_never_moves_up :
  0 < size font → 0 < size heading_font →
  (∀ c line w,
     cur_y c ≤ cur_y (step c line w).1 ∧
     (strip line = "" →
      cur_y (step c line w).1 = cur_y c + (size font + 8)) ∧
     (trace (step c line w).2 ≠ trace w →
      cur_y (step c line w).1 = cur_y c + (size font + 8) ∨
      cur_y (step c line w).1 = cur_y c + (size heading_font + 12)) ∧
     (strip line ≠ "" → trace (step c line w).2 = trace w →
      cur_y (step c line w).1 = cur_y c)) ∧
  (∀ lines c w, cur_y c ≤ cur_y (for_each step lines c w).1) ∧
  (∀ lines1 lines2 c w,
     cur_y (for_each step lines1 c w).1
     ≤ cur_y (for_each step (lines1 ++ lines2) c w).1).
Proof.
  intros Hf Hh.
  assert (∀ c line w,
     cur_y c ≤ cur_y (step c line w).1 ∧
     (strip line = "" →
      cur_y (step c line w).1 = cur_y c + (size font + 8)) ∧
     (trace (step c line w).2 ≠ trace w →
      cur_y (step c line w).1 = cur_y c + (size font + 8) ∨
      cur_y (step c line w).1 = cur_y c + (size heading_font + 12)) ∧
     (strip line ≠ "" → trace (step c line w).2 = trace w →
      cur_y (step c line w).1 = cur_y c)) as Hstep.
  { intros c line w.
    destruct (draw_line_cases c line w)
      as [[Hb ->]|[[Hb ->]|[(Hb & _ & ->)|(Hb & _ & text & lwh & ->)]]];
      cbn [fst snd cur_y record_drawn trace].
    - split_and!; [lia|done|done|done].
    - split_and!; [lia|done|done|done].
    - split_and!; [lia|done|by right|].
      intros _ E. apply (f_equal length) in E. rewrite length_app in E.
      simpl in E. lia.
    - split_and!; [lia|done|by left|].
      intros _ E. apply (f_equal length) in E. rewrite length_app in E.
      simpl in E. lia. }
  assert (∀ lines c w, cur_y c ≤ cur_y (for_each step lines c w).1) as Hloop.
  { induction lines as [|line lines IH]; intros c w; [done|].
    rewrite for_each_cons. etrans; [apply (Hstep c line w)|apply IH]. }
  split_and!; [done..|].
  intros lines1 lines2 c w. rewrite for_each_app. apply Hloop.
Qed.


End renderer.

(** ** The set of drawn lines is the caller's object *)

(** C10. [draw_text] returns the very reference it was given (that of its
    one default set when the argument is left out); the set behind it
    only grows, no other set is touched, and every line that reaches the
    page is in it when the call returns. A later call on the same set, as
    are all calls that leave the argument out, behaves as if the lines
    already in the set were not in its text. *)
Theorem draw_text_updates_the_callers_set
  formatted_text x y heading_font font font_color previous_lines w :
  let l := default draw_text_default previous_lines in
  let step := draw_line x heading_font font font_color l in
  let r := draw_text formatted_text x y heading_font font font_color
             previous_lines w in
  r.1.2 = l ∧
  sets w !!! l ⊆ sets r.2 !!! l ∧
  (∀ l', l' ≠ l → sets r.2 !! l' = sets w !! l') ∧
  (∀ lines1 line lines2,
     Str.split_nl formatted_text = lines1 ++ line :: lines2 →
     let before := for_each step lines1 (start_cursor y) w in
     trace (step before.1 line before.2).2 ≠ trace before.2 →
     line ∈ sets r.2 !!! l) ∧
  (∀ text' x' y' heading_font' font' font_color',
     previous_lines = None →
     draw_text text' x' y' heading_font' font' font_color' None r.2
     = let r' :=
         for_each (draw_line x' heading_font' font' font_color' draw_text_default)
           (filter (λ line, ¬ already_drawn (sets r.2 !!! draw_text_default) line)
              (Str.split_nl text'))
           (start_cursor y') r.2 in
       ((cur_y r'.1, draw_text_default), r'.2)).
Proof.
  intros l step r. subst r. rewrite draw_text_run. cbn [fst snd]. fold l step.
  destruct (for_each_grows x heading_font font font_color l
              (Str.split_nl formatted_text) (start_cursor y) w) as (H1 & H2 & _).
  split_and!; [done..| |].
  - intros lines1 line lines2 E Hdrawn. rewrite E. subst step.
    rewrite for_each_app, for_each_cons.
    set (step := draw_line x heading_font font font_color l) in *.
    set (before := for_each step lines1 (start_cursor y) w) in *.
    destruct (for_each_grows x heading_font font font_color l lines2
                (step before.1 line before.2).1 (step before.1 line before.2).2)
      as (Hsub & _).
    by apply Hsub, draw_line_records.
  - intros text' x' y' hf' f' col' ->. rewrite draw_text_run. cbn [default].
    by rewrite <-for_each_skips_seen.
Qed.

(** ** The pipeline on a heading *)

Section pipeline.
Context (P : Pillow) (max_width : Z) (heading_font font : Font).
Context (font_color : string) (x y : Z) (l : loc) (w : World).
Import Str StrFacts.

(** C1 (as the code behaves). On ["## Title\nHello world"] with room to
    spare the wrapper yields the two lines ["Title"] and ["Hello world"],
    and the renderer draws each of them once; but the wrapper has removed
    the marker by which the renderer recognises a heading, so ["Title"] is
    drawn with the body font and the body spacing, like the line after
    it. *)
Theorem heading_drawn_with_body_font :
  line_width P (Some font) "Hello" ≤ max_width →
  line_width P (Some font) "Hello world" ≤ max_width →
  "Title" ∉ sets w !!! l → "Hello world" ∉ sets w !!! l →
  split_text_into_lines P title_and_hello max_width (Some font)
  = "Title" +:+ nl +:+ "Hello world" ∧
  (draw_text (split_text_into_lines P title_and_hello max_width (Some font))
     x y heading_font font font_color (Some l) w).1
  = (y + (size font + 8) + (size font + 8), l) ∧
  trace (draw_text (split_text_into_lines P title_and_hello max_width (Some font))
           x y heading_font font font_color (Some l) w).2
  = trace w ++ [DrawText x y "Title" font font_color;
                DrawText x (y + (size font + 8)) "Hello world" font font_color].
Proof.
  intros Hfit1 Hfit2 Hnew1 Hnew2.
  assert (split_text_into_lines P title_and_hello max_width (Some font)
          = "Title" +:+ nl +:+ "Hello world") as ->.
  { unfold split_text_into_lines, wrap_lines.
    change (split_nl title_and_hello) with ["## Title"; "Hello world"].
    cbn [fold_left].
    change (wrap_paragraph P max_width (Some font) ([], []) "## Title")
      with (["Title"], @nil string).
    unfold wrap_paragraph.
    change (String.eqb (strip "Hello world") "") with false.
    change (startswith "Hello world" "## ") with false.
    change (split "Hello world") with ["Hello"; "world"]. cbv iota.
    rewrite wrap_words_fit; [done|].
    intros [|[|[|k]]] Hk; simpl in Hk; try lia; done. }
  split; [done|]. rewrite draw_text_run. cbn [default from_option id].
  change (split_nl ("Title" +:+ nl +:+ "Hello world"))
    with ["Title"; "Hello world"].
  rewrite !for_each_cons.
  rewrite (draw_line_body _ _ _ _ _ _ "Title") by done.
  cbn [fst snd].
  rewrite (draw_line_body _ _ _ _ _ _ "Hello world");
    [|done| |done|done].
  2:{ rewrite record_drawn_lookup.
      intros [[=]%elem_of_singleton|?]%elem_of_union. done. }
  cbn [for_each]. rewrite run_ret.
  change (startswith "Title" "**" && endswith "Title" "**") with false.
  change (startswith "Hello world" "**" && endswith "Hello world" "**")
    with false.
  cbn [fst snd cur_y start_cursor record_drawn trace].
  split; [done|]. by rewrite <-(assoc_L (++)).
Qed.

End pipeline.

(** ** The statements at work in the fixed-pitch environment *)

Import Str.

Example composer_on_title_and_hello :
  trace (text_to_handwriting mono title_and_hello "font.ttf" "out.jpg"
           "#000000" None initial_world).2
  = [NewImage 2000 3000; Truetype "font.ttf" 120; Truetype "font.ttf" 100;
     Truetype "font.ttf" 60;
     DrawText 100 100 "Title" font60 "#000000";
     DrawText 100 168 "Hello world" font60 "#000000";
     Save "out.jpg"].
Proof. vm_compute. reflexivity. Qed.

(** [current_line] is not emptied after the flush at the end of a
    paragraph, so the next paragraph repeats it. *)
Example wrap_repeats_previous_paragraph :
  split_text_into_lines mono ("a" +:+ nl +:+ "b") 1800 (Some font60)
  = "a" +:+ nl +:+ "a b".
Proof. vm_compute. reflexivity. Qed.

Lemma heading_drawn_with_body_font_witness :
  line_width mono (Some font60) "Hello" ≤ 1800 ∧
  line_width mono (Some font60) "Hello world" ≤ 1800 ∧
  trace (draw_text (split_text_into_lines mono title_and_hello 1800 (Some font60))
           100 100 font120 font60 "#000000"
           (Some text_to_handwriting_default) initial_world).2
  = trace initial_world
    ++ [DrawText 100 100 "Title" font60 "#000000";
        DrawText 100 (100 + (size font60 + 8)) "Hello world" font60 "#000000"].
Proof.
  split; [by vm_compute|]. split; [by vm_compute|].
  apply (heading_drawn_with_body_font mono 1800 font120 font60 "#000000"
           100 100 text_to_handwriting_default initial_world).
  - by vm_compute.
  - by vm_compute.
  - vm_compute. set_solver.
  - vm_compute. set_solver.
Defined.

Lemma wrap_oversized_word_witness :
  is_word "abcdefgh" = true ∧
  line_width mono (Some font60) "abcdefgh" > 100 ∧
  split_text_into_lines mono "abcdefgh" 100 (Some font60) = nl +:+ "abcdefgh".
Proof.
  split; [reflexivity|]. split; [reflexivity|].
  apply (wrap_oversized_word mono 100 (Some font60) "abcdefgh"); reflexivity.
Defined.

(** C3 (as stated) fails: on empty text the composer has invoked the
    adapter and reports a layout failure. *)
Lemma empty_text_not_rejected_early :
  ¬ rejected_before_adapter "font.ttf"
      (trace (text_to_handwriting mono "" "font.ttf" "out.jpg" "#000000"
                None initial_world).2).
Proof.
  intros [Hnot _]. apply Hnot. unfold adapter_invoked.
  change (trace (text_to_handwriting mono "" "font.ttf" "out.jpg" "#000000"
                   None initial_world).2)
    with [NewImage 2000 3000; Truetype "font.ttf" 120; Truetype "font.ttf" 100;
          Truetype "font.ttf" 60; StError could_not_format].
  do 3 right. left.
Qed.

Lemma empty_text_reported_as_layout_failure_witness :
  font_available mono "font.ttf" = true ∧
  ∃ tried,
    text_to_handwriting mono "" "font.ttf" "out.jpg" "#000000" None initial_world
    = (None,
       add_events initial_world
         ([NewImage 2000 3000; Truetype "font.ttf" 120; Truetype "font.ttf" 100;
           Truetype "font.ttf" 60]
          ++ (Truetype "font.ttf" <$> tried)
          ++ [StError could_not_format])).
Proof.
  split; [reflexivity|].
  apply (empty_text_reported_as_layout_failure mono "font.ttf" "out.jpg"
           "#000000" None); reflexivity.
Defined.

(** The marker of a heading is not among the words of the output. *)
Lemma heading_marker_not_kept :
  split (split_text_into_lines mono "## Title" 1800 (Some font60))
  ≠ split "## Title".
Proof. vm_compute. discriminate. Qed.

Lemma wrap_keeps_words_witness :
  no_newline "  Hello   world " = true ∧
  split (split_text_into_lines mono "  Hello   world " 1800 (Some font60))
  = content_words "  Hello   world ".
Proof.
  split; [reflexivity|].
  apply (wrap_keeps_words mono 1800 (Some font60) "  Hello   world ").
  reflexivity.
Defined.

(** C5 (as stated) fails: a line that fits, with two spaces between its
    words, comes back with one. *)
Lemma wrap_collapses_spaces :
  no_newline "a  b" = true ∧
  line_width mono (Some font60) "a  b" < 1800 ∧
  split_text_into_lines mono "a  b" 1800 (Some font60) ≠ "a  b".
Proof. split; [reflexivity|]. split; [reflexivity|]. vm_compute. discriminate. Qed.

Lemma wrap_single_line_witness :
  no_newline "Hello  world" = true ∧
  startswith "Hello  world" "## " = false ∧
  split_text_into_lines mono "Hello  world" 1800 (Some font60) = "Hello world".
Proof.
  split; [reflexivity|]. split; [reflexivity|].
  apply (wrap_single_line mono 1800 (Some font60) "Hello  world");
    [reflexivity|reflexivity|].
  intros [|[|[|k]]] Hk; simpl in Hk; try lia; by vm_compute.
Defined.

Lemma adapter_failure_is_reported_witness :
  font_available mono "font.ttf" = true ∧
  (∀ k, 10 < k ≤ 60 → fits_at mono long_word "font.ttf" 2000 3000 k = false) ∧
  text_to_handwriting mono long_word "font.ttf" "out.jpg" "#000000" None
    initial_world
  = (None,
     add_events initial_world
       ([NewImage 2000 3000; Truetype "font.ttf" 120; Truetype "font.ttf" 100]
        ++ (Truetype "font.ttf" <$> sizes_down_from 60)
        ++ [StError could_not_format])).
Proof.
  assert (∀ k, 10 < k ≤ 60 →
               fits_at mono long_word "font.ttf" 2000 3000 k = false) as Hnone.
  { intros k Hk%elem_of_sizes_down_from%list_elem_of_In.
    assert (forallb (λ k, negb (fits_at mono long_word "font.ttf" 2000 3000 k))
              (sizes_down_from 60) = true) as Hall
      by (vm_compute; reflexivity).
    rewrite forallb_forall in Hall. by apply negb_true_iff, Hall. }
  split; [reflexivity|]. split; [exact Hnone|].
  apply (adapter_failure_is_reported mono "font.ttf" "out.jpg" "#000000" None);
    [reflexivity|exact Hnone].
Defined.


Lemma text_fits_monotone_witness :
  100 < 200 ∧
  text_fits_on_page mono "Hello" (Some font60) 1800 100 = true ∧
  text_fits_on_page mono "Hello" (Some font60) 1800 200 = true.
Proof.
  split; [reflexivity|]. split; [reflexivity|].
  apply (text_fits_monotone mono (Some font60) 1800 "Hello" 100 200);
    reflexivity.
Defined.

Lemma cursor_never_moves_up_witness :
  0 < size font60 ∧ 0 < size font120 ∧
  ∀ lines c w,
    cur_y c
    ≤ cur_y (for_each (draw_line 100 font120 font60 "#000000" draw_text_default)
               lines c w).1.
Proof.
  split; [reflexivity|]. split; [reflexivity|].
  apply (cursor_never_moves_up 100 font120 font60 "#000000" draw_text_default);
    reflexivity.
Defined.


Lemma draw_text_updates_the_callers_set_witness :
  let r := draw_text "Hello" 100 100 font120 font60 "#000000" None
             initial_world in
  r.1.2 = draw_text_default ∧
  "Hello" ∈ sets r.2 !!! draw_text_default ∧
  draw_text "Hello" 100 100 font120 font60 "#000000" None r.2
  = ((100, draw_text_default), r.2).
Proof.
  intros r.
  destruct (draw_text_updates_the_callers_set "Hello" 100 100 font120 font60
              "#000000" None initial_world) as (Hsame & _ & _ & Hin & Hlater).
  split; [exact Hsame|]. split.
  - apply (Hin [] "Hello" []); [reflexivity|]. by vm_compute.
  - fold r in Hlater. rewrite Hlater by reflexivity.
    by vm_compute.
Defined.

(** * Further properties *)

(** ** More on the fit checker *)

Section fit_checker_more.
Context (P : Pillow) (font : option Font).
Import Str StrFacts.

Lemma stacked_height_cons l lines :
  stacked_height P font (l :: lines)
  = bbox_height (textbbox P font l) + 8 + stacked_height P font lines.
Proof. reflexivity. Qed.

(** The loop accepts exactly when every line is narrow enough and ends no
    lower than [max_height], the lines before it counted with their
    spacing. *)
Lemma fits_loop_spec max_width max_height lines current_height :
  fits_loop P font max_width max_height lines current_height = true ↔
  ∀ i line, lines !! i = Some line →
    line_width P font line ≤ max_width ∧
    current_height + stacked_height P font (take i lines)
      + bbox_height (textbbox P font line) ≤ max_height.
Proof.
  revert current_height.
  induction lines as [|l lines IH]; intros cur; cbn [fits_loop].
  - split; [by intros _ i line|done].
  - destruct (Z.gtb_spec (bbox_width (textbbox P font l)) max_width) as [Hw|Hw];
      cbn [orb].
    { split; [done|]. intros H. destruct (H 0%nat l eq_refl) as [H1 _].
      unfold line_width in H1. lia. }
    destruct (Z.gtb_spec (cur + bbox_height (textbbox P font l)) max_height)
      as [Hh|Hh].
    { split; [done|]. intros H. destruct (H 0%nat l eq_refl) as [_ H2].
      change (take 0 (l :: lines)) with (@nil string) in H2.
      change (stacked_height P font []) with 0 in H2. lia. }
    rewrite IH. split.
    + intros H [|i] line Hi.
      * injection Hi as <-. change (take 0 (l :: lines)) with (@nil string).
        change (stacked_height P font []) with 0. unfold line_width. lia.
      * destruct (H i line Hi) as [H1 H2]. split; [done|].
        change (take (S i) (l :: lines)) with (l :: take i lines).
        rewrite stacked_height_cons. lia.
    + intros H i line Hi. destruct (H (S i) line Hi) as [H1 H2].
      split; [done|].
      change (take (S i) (l :: lines)) with (l :: take i lines) in H2.
      rewrite stacked_height_cons in H2. lia.
Qed.

(** X1. [text_fits_on_page] returns [True] exactly when every line of the
    text is at most [max_width] wide and, with 8 units of spacing after
    each line above it, ends at or above [max_height]. *)
Theorem text_fits_on_page_spec text max_width max_height :
  text_fits_on_page P text font max_width max_height = true ↔
  ∀ i line, split_nl text !! i = Some line →
    line_width P font line ≤ max_width ∧
    stacked_height P font (take i (split_nl text))
      + bbox_height (textbbox P font line) ≤ max_height.
Proof.
  unfold text_fits_on_page. rewrite fits_loop_spec.
  by setoid_rewrite Z.add_0_l.
Qed.

(** X2. [text_fits_on_page] is monotone in [max_width] as well: a text
    that fits keeps fitting when the width bound grows. *)
Theorem text_fits_monotone_width text w w' max_height :
  w ≤ w' →
  text_fits_on_page P text font w max_height = true →
  text_fits_on_page P text font w' max_height = true.
Proof.
  intros Hw. unfold text_fits_on_page. rewrite !fits_loop_spec.
  intros H i line Hi. destruct (H i line Hi). split; [lia|done].
Qed.

End fit_checker_more.

(** ** More on the string methods *)

Module StrMore.
Import Str StrFacts.

Lemma split_nl_app_newline a b :
  no_newline a = true →
  split_nl (a +:+ String newline b) = a :: split_nl b.
Proof.
  induction a as [|c a IH]; [done|]. rewrite sapp_cons. simpl.
  destruct (Ascii.eqb c newline); [done|]. simpl. intros H. by rewrite IH.
Qed.

(** ["\n".join(ls).split('\n') == ls] for lines without newline. *)
Lemma split_nl_join ls :
  ls ≠ [] → Forall (λ l, no_newline l = true) ls →
  split_nl (join nl ls) = ls.
Proof.
  induction ls as [|l [|l' ls] IH]; intros Hne Hls; [done|..].
  - rewrite join_singleton. apply split_nl_no_newline. by inversion Hls.
  - rewrite join_cons2. inversion Hls; subst.
    change (nl +:+ join nl (l' :: ls)) with (String newline (join nl (l' :: ls))).
    rewrite split_nl_app_newline by done. by rewrite IH.
Qed.

Lemma split_nl_no_newlines s : Forall (λ l, no_newline l = true) (split_nl s).
Proof.
  induction s as [|c s IH]; [by repeat constructor|]. simpl.
  destruct (Ascii.eqb c newline) eqn:Hc; [by constructor|].
  destruct (split_nl s) as [|l ls]; [by repeat constructor; simpl; rewrite Hc|].
  inversion IH; subst. constructor; [|done]. simpl. by rewrite Hc.
Qed.

Lemma no_newline_drop n s : no_newline s = true → no_newline (drop n s) = true.
Proof.
  revert s. induction n as [|n IH]; intros [|c s]; try done.
  simpl. intros [_ H]%andb_prop. by apply IH.
Qed.

Lemma no_newline_app s t :
  no_newline (s +:+ t) = no_newline s && no_newline t.
Proof.
  induction s as [|c s IH]; [done|]. rewrite sapp_cons. simpl.
  by rewrite IH, andb_assoc.
Qed.

Lemma no_newline_join_words ws :
  Forall (λ w, is_word w = true) ws → no_newline (join " " ws) = true.
Proof.
  induction ws as [|w [|w' ws] IH]; intros Hws; [done|..].
  - rewrite join_singleton. inversion Hws; subst.
    by apply no_space_no_newline, is_word_no_space.
  - rewrite join_cons2, !no_newline_app. inversion Hws; subst.
    rewrite IH by done.
    by rewrite no_space_no_newline by by apply is_word_no_space.
Qed.

Lemma split_go_nil cur s : split_go cur s = [] → cur = "" ∧ all_space s = true.
Proof.
  revert cur. induction s as [|c s IH]; intros cur; simpl.
  - unfold flush. by destruct (String.eqb_spec cur "").
  - destruct (isspace c).
    + intros [H1 H2]%app_eq_nil. apply IH in H2 as [_ ->].
      unfold flush in H1. by destruct (String.eqb_spec cur "").
    + intros [H _]%IH. by apply sapp_nonempty_r in H.
Qed.

Lemma lstrip_all_space_empty s : all_space s = true → lstrip s = "".
Proof.
  induction s as [|c s IH]; [done|]. simpl.
  intros [-> H]%andb_prop. by apply IH.
Qed.

(** A line that is not blank has a word. *)
Lemma split_nonblank s : strip s ≠ "" → split s ≠ [].
Proof.
  intros Hs Hnil. apply Hs. apply split_go_nil in Hnil as [_ H].
  unfold strip. by rewrite lstrip_all_space_empty.
Qed.

End StrMore.

(** ** More on the word wrapper *)

Section wrapper_more.
Context (P : Pillow) (max_width : Z) (font : option Font) (text : string).
Import Str StrFacts StrMore.

Local Abbreviation words := (Forall (λ w, is_word w = true)).
Local Abbreviation shaped := (Forall (wrapped_line P max_width font text)).
Local Abbreviation word_step := (wrap_word P max_width font).
Local Abbreviation paragraph_step := (wrap_paragraph P max_width font).

Local Abbreviation pending := (pending_line P max_width font).

Lemma wrapped_line_pending cur :
  words cur → pending cur →
  wrapped_line P max_width font text (join " " cur).
Proof.
  intros Hw Hp. destruct cur as [|c cs]; [by left|].
  right. right. exists (c :: cs).
  destruct Hp as [?|Hp]; [done|]. by split_and!.
Qed.

Lemma wrap_word_shape lines cur w :
  shaped lines → words cur → pending cur → is_word w = true →
  shaped (word_step (lines, cur) w).1 ∧
  words (word_step (lines, cur) w).2 ∧
  pending (word_step (lines, cur) w).2 ∧
  (word_step (lines, cur) w).2 ≠ [] ∧
  (length lines ≤ length (word_step (lines, cur) w).1)%nat.
Proof.
  intros Hl Hc Hp Hw.
  destruct (Z_le_gt_dec (line_width P font (join " " (cur ++ [w]))) max_width)
    as [Hfit|Hover].
  - rewrite wrap_word_fits by done. cbn [fst snd]. split_and!; [done| | | |done].
    + apply Forall_app. split; [done|by constructor].
    + by right; right.
    + by destruct cur.
  - rewrite wrap_word_overflow by done. cbn [fst snd]. split_and!.
    + apply Forall_app. split; [done|]. constructor; [|done].
      by apply wrapped_line_pending.
    + by constructor.
    + right. by left.
    + done.
    + rewrite length_app. lia.
Qed.

Lemma wrap_words_shape ws lines cur :
  shaped lines → words cur → pending cur → words ws →
  shaped (fold_left word_step ws (lines, cur)).1 ∧
  words (fold_left word_step ws (lines, cur)).2 ∧
  pending (fold_left word_step ws (lines, cur)).2 ∧
  (ws ≠ [] → (fold_left word_step ws (lines, cur)).2 ≠ []) ∧
  (length lines ≤ length (fold_left word_step ws (lines, cur)).1)%nat.
Proof.
  revert lines cur. induction ws as [|w ws IH]; intros lines cur Hl Hc Hp Hws.
  - by cbn [fold_left fst snd].
  - cbn [fold_left]. inversion Hws as [|? ? Hw Hws']; subst.
    destruct (wrap_word_shape lines cur w) as (H1 & H2 & H3 & H4 & H5); [done..|].
    destruct (word_step (lines, cur) w) as [lines' cur']. cbn [fst snd] in *.
    destruct (IH lines' cur') as (G1 & G2 & G3 & G4 & G5); [done..|].
    split_and!; [done..| |lia].
    intros _. destruct ws as [|w' ws]; [done|]. by apply G4.
Qed.

(** One paragraph keeps the shape of the lines and of what is pending, and
    appends at least one line. *)
Lemma wrap_paragraph_shape line lines cur :
  line ∈ split_nl text →
  shaped lines → words cur → pending cur →
  shaped (paragraph_step (lines, cur) line).1 ∧
  words (paragraph_step (lines, cur) line).2 ∧
  pending (paragraph_step (lines, cur) line).2 ∧
  (S (length lines) ≤ length (paragraph_step (lines, cur) line).1)%nat.
Proof.
  intros Hin Hl Hc Hp. unfold wrap_paragraph.
  destruct (String.eqb_spec (strip line) "") as [Hb|Hb].
  - cbn [fst snd]. split_and!; [|done..|rewrite length_app; simpl; lia].
    apply Forall_app. split; [done|]. constructor; [by left|done].
  - destruct (startswith line "## ") eqn:Hh.
    + assert (wrapped_line P max_width font text (drop 3 line)) as Hd.
      { right. left. by exists line. }
      destruct cur as [|c cs]; cbn [fst snd].
      * split_and!; [|done|by left|rewrite length_app; simpl; lia].
        apply Forall_app. split; [done|by constructor].
      * split_and!; [|done|by left|rewrite !length_app; simpl; lia].
        apply Forall_app. split; [|by constructor].
        apply Forall_app. split; [done|]. constructor; [|done].
        by apply wrapped_line_pending.
    + destruct (wrap_words_shape (split line) lines cur)
        as (H1 & H2 & H3 & H4 & H5); [done..|apply split_words|].
      specialize (H4 (split_nonblank _ Hb)).
      destruct (fold_left word_step (split line) (lines, cur)) as [lines' cur'].
      cbn [fst snd] in *. destruct cur' as [|c cs]; [done|]. cbn [fst snd].
      split_and!; [|done..|rewrite length_app; simpl; lia].
      apply Forall_app. split; [done|]. constructor; [|done].
      by apply wrapped_line_pending.
Qed.

Lemma wrap_paragraphs_shape ls lines cur :
  (∀ line, line ∈ ls → line ∈ split_nl text) →
  shaped lines → words cur → pending cur →
  shaped (fold_left paragraph_step ls (lines, cur)).1 ∧
  (length lines + length ls
   ≤ length (fold_left paragraph_step ls (lines, cur)).1)%nat.
Proof.
  revert lines cur. induction ls as [|l ls IH]; intros lines cur Hin Hl Hc Hp.
  - cbn [fold_left fst length]. split; [done|lia].
  - cbn [fold_left].
    destruct (wrap_paragraph_shape l lines cur) as (H1 & H2 & H3 & H4);
      [apply Hin; by left|done..|].
    destruct (paragraph_step (lines, cur) l) as [lines' cur'].
    cbn [fst snd] in *.
    destruct (IH lines' cur') as [G1 G2]; [|done..|].
    { intros line Hline. apply Hin. by right. }
    split; [done|]. cbn [length]. lia.
Qed.

Lemma wrapped_line_no_newline l :
  wrapped_line P max_width font text l → no_newline l = true.
Proof.
  intros [->|[(line & Hin & _ & ->)|(ws & _ & Hws & -> & _)]].
  - done.
  - apply no_newline_drop.
    pose proof (split_nl_no_newlines text) as H.
    rewrite Forall_forall in H. by apply H.
  - by apply no_newline_join_words.
Qed.

(** X3. Every line the wrapper returns is an empty line, the rest of a
    heading line of the text, or words joined by single spaces; and such
    a line of more than one word is never wider than [max_width]. *)
Theorem wrap_lines_shape :
  Forall (wrapped_line P max_width font text) (wrap_lines P text max_width font).
Proof.
  unfold wrap_lines.
  apply (wrap_paragraphs_shape (split_nl text) [] []); [done|done|done|by left].
Qed.

(** X4. Splitting the wrapper's result at its newlines gives back the lines
    the wrapper built, so the fit checker and the renderer work on just
    these; and there are at least as many of them as the raw text has
    lines. *)
Theorem wrap_lines_round_trip :
  split_nl (split_text_into_lines P text max_width font)
  = wrap_lines P text max_width font ∧
  (length (split_nl text) ≤ length (wrap_lines P text max_width font))%nat.
Proof.
  unfold split_text_into_lines, wrap_lines.
  destruct (wrap_paragraphs_shape (split_nl text) [] []) as [H1 H2];
    [done|done|done|by left|].
  split; [|done]. apply split_nl_join.
  - intros E. rewrite E in H2. pose proof (split_nl_nonempty text).
    destruct (split_nl text); [done|]. simpl in H2. lia.
  - eapply Forall_impl; [exact H1|]. apply wrapped_line_no_newline.
Qed.

End wrapper_more.

(** ** More on the font-size adapter *)

Lemma search_spec (ok : Z → bool) candidates :
  (search ok candidates).1 `prefix_of` candidates ∧
  match (search ok candidates).2 with
  | Some k => ok k = true ∧ k ∈ candidates
  | None => (search ok candidates).1 = candidates
  end.
Proof.
  induction candidates as [|c cs IH]; [done|]. cbn [search].
  destruct (ok c) eqn:Hc; cbn [fst snd].
  - split; [by apply prefix_cons, prefix_nil|]. split; [done|by left].
  - destruct (search ok cs) as [tried [k|]]; cbn [fst snd] in *.
    + destruct IH as (H1 & H2 & H3). split; [by apply prefix_cons|].
      split; [done|by right].
    + destruct IH as [H1 H2]. split; [by apply prefix_cons|]. by rewrite H2.
Qed.

Lemma search_first (ok : Z → bool) before k after :
  (∀ c, c ∈ before → ok c = false) → ok k = true →
  search ok (before ++ k :: after) = (before ++ [k], Some k).
Proof.
  intros Hb Hk. induction before as [|c cs IH]; cbn [app search].
  - by rewrite Hk.
  - rewrite Hb by left. rewrite IH; [done|]. intros c' Hc'. apply Hb. by right.
Qed.

Lemma sizes_down_from_split k :
  10 < k ≤ 60 →
  sizes_down_from 60
  = reverse (seqZ (k + 1) (60 - k)) ++ k :: sizes_down_from (k - 1).
Proof.
  intros Hk. unfold sizes_down_from.
  replace (60 - 10) with ((k - 11) + (1 + (60 - k))) by lia.
  rewrite seqZ_app by lia. rewrite (seqZ_cons (11 + (k - 11))) by lia.
  rewrite reverse_app, reverse_cons, <-(assoc_L (++)). cbn [app].
  replace (Z.succ (11 + (k - 11))) with (k + 1) by lia.
  replace (Z.pred (1 + (60 - k))) with (60 - k) by lia.
  replace (11 + (k - 11)) with k by lia.
  by replace (k - 1 - 10) with (k - 11) by lia.
Qed.

Section adapter_more.
Context (P : Pillow) (text font_path : string) (max_width max_height : Z).

Local Abbreviation fits := (fits_at P text font_path max_width max_height).
Local Abbreviation wrapped := (wrapped_at P text font_path max_width).

(** X5. The adapter returns the largest size from 60 down to 11 at which
    the wrapped text fits, together with the text wrapped at that size,
    after loading the font once at each size from 60 down to it. *)
Theorem adjust_picks_largest_fit k w :
  10 < k ≤ 60 →
  fits k = true →
  (∀ j, k < j ≤ 60 → fits j = false) →
  adjust_font_size P text font_path max_width max_height w
  = ((wrapped k, loaded_font P font_path k),
     add_events w
       (flat_map (load_events P font_path) (reverse (seqZ k (61 - k))))).
Proof.
  intros Hk Hfit Hlarger. unfold adjust_font_size.
  rewrite adjust_loop_search, (sizes_down_from_split k) by done.
  rewrite search_first;
    [|intros c Hc%elem_of_reverse%elem_of_seqZ; apply Hlarger; lia|done].
  rewrite (seqZ_cons k) by lia. rewrite reverse_cons.
  replace (Z.succ k) with (k + 1) by lia.
  by replace (Z.pred (61 - k)) with (60 - k) by lia.
Qed.

(** X6. Whatever the adapter returns, it has loaded the font at the sizes
    60, 59, ... in turn, at most fifty times; and when it returns a font,
    this is the font of the given file at a size from 11 to 60, the text
    is the raw text wrapped with it, and this text passes the fit check
    with it. *)
Theorem adjust_result_fits w :
  ∃ tried,
    tried `prefix_of` sizes_down_from 60 ∧ (length tried ≤ 50)%nat ∧
    (adjust_font_size P text font_path max_width max_height w).2
    = add_events w (flat_map (load_events P font_path) tried) ∧
    ∀ text' font,
      (adjust_font_size P text font_path max_width max_height w).1
      = (text', Some font) →
      ∃ k, 10 < k ≤ 60 ∧ font = {| path := font_path; size := k |} ∧
           text' = wrapped k ∧
           text_fits_on_page P text' (Some font)
             (max_width - 200) (max_height - 200) = true.
Proof.
  unfold adjust_font_size. rewrite adjust_loop_search.
  destruct (search_spec fits (sizes_down_from 60)) as [Hpre Hfound].
  destruct (search fits (sizes_down_from 60)) as [tried found].
  cbn [fst snd] in *. exists tried. split_and!; [done| |done|].
  - apply prefix_length in Hpre. by rewrite sizes_down_from_60 in Hpre.
  - intros text' font E. destruct found as [k|]; [|done].
    destruct Hfound as [Hfit Hk%elem_of_sizes_down_from].
    injection E as <- Hfont. exists k. unfold fits_at in Hfit.
    unfold loaded_font in *. destruct (font_available P font_path); [|done].
    injection Hfont as <-. split; [exact Hk|]. by split_and!.
Qed.

End adapter_more.

(** ** More on the line renderer *)

Section renderer_more.
Context (x : Z) (heading_font font : Font) (font_color : string).
Context (drawn_lines : loc).
Import Str StrFacts.

Local Abbreviation step := (draw_line x heading_font font font_color drawn_lines).
Local Abbreviation nonblank := (filter (λ line, strip line ≠ "")).

(** What a pass adds to the trace: nothing but [draw.text] calls at [x] in
    the given colour with one of the two fonts, at most one for each line
    that is not blank. *)
Lemma for_each_draws lines c w :
  ∃ es,
    trace (for_each step lines c w).2 = trace w ++ es ∧
    Forall (draws_with x heading_font font font_color) es ∧
    (length es ≤ length (nonblank lines))%nat.
Proof.
  revert c w. induction lines as [|line lines IH]; intros c w.
  - exists []. cbn. by rewrite app_nil_r.
  - rewrite for_each_cons.
    destruct (draw_line_cases x heading_font font font_color drawn_lines c line w)
      as [[Hb ->]|[[Hb ->]|[(Hb & _ & ->)|(Hb & _ & text & lwh & ->)]]];
      cbn [fst snd].
    + destruct (IH {| cur_y := cur_y c + (size font + 8);
                      last_was_heading := last_was_heading c;
                      previous_line := previous_line c |} w)
        as (es & E & Hes & Hlen).
      exists es. by rewrite filter_cons_False by (by intros ?).
    + destruct (IH c w) as (es & E & Hes & Hlen).
      exists es. rewrite filter_cons_True by done. split_and!; [done..|].
      cbn [length]. lia.
    + match goal with |- context [for_each _ lines ?c' ?w'] =>
        destruct (IH c' w') as (es & E & Hes & Hlen) end.
      eexists (_ :: es). rewrite E. cbn [record_drawn trace].
      rewrite <-(assoc_L (++)). split_and!; [done| |].
      * constructor; [|done]. eexists _, _, _. split; [done|by left].
      * rewrite filter_cons_True by done. cbn [length]. lia.
    + match goal with |- context [for_each _ lines ?c' ?w'] =>
        destruct (IH c' w') as (es & E & Hes & Hlen) end.
      eexists (_ :: es). rewrite E. cbn [record_drawn trace].
      rewrite <-(assoc_L (++)). split_and!; [done| |].
      * constructor; [|done]. eexists _, _, _. split; [done|by right].
      * rewrite filter_cons_True by done. cbn [length]. lia.
Qed.

Lemma draw_line_cursor_le c line w :
  0 < size font → 0 < size heading_font →
  cur_y c ≤ cur_y (step c line w).1.
Proof.
  intros Hf Hh.
  destruct (draw_line_cases x heading_font font font_color drawn_lines c line w)
    as [[_ ->]|[[_ ->]|[(_ & _ & ->)|(_ & _ & text & lwh & ->)]]];
    cbn [fst cur_y]; lia.
Qed.

Lemma for_each_cursor_le lines c w :
  0 < size font → 0 < size heading_font →
  cur_y c ≤ cur_y (for_each step lines c w).1.
Proof.
  intros Hf Hh. revert c w. induction lines as [|line lines IH]; intros c w.
  - done.
  - rewrite for_each_cons. etrans; [by apply (draw_line_cursor_le c line w)|].
    apply IH.
Qed.

(** The ordinates of the calls grow strictly, between the cursor at the
    start and the cursor at the end. *)
Lemma for_each_ordinates lines c w :
  0 < size font → 0 < size heading_font →
  ∃ es,
    trace (for_each step lines c w).2 = trace w ++ es ∧
    StronglySorted Z.lt (draw_ys es) ∧
    Forall (λ y', cur_y c ≤ y' < cur_y (for_each step lines c w).1) (draw_ys es).
Proof.
  intros Hf Hh. revert c w. induction lines as [|line lines IH]; intros c w.
  - exists []. cbn. rewrite app_nil_r. split_and!; [done|constructor|done].
  - rewrite for_each_cons.
    destruct (draw_line_cases x heading_font font font_color drawn_lines c line w)
      as [[Hb ->]|[[Hb ->]|[(Hb & _ & ->)|(Hb & _ & text & lwh & ->)]]];
      cbn [fst snd];
      match goal with |- context [for_each _ lines ?c' ?w'] =>
        pose proof (for_each_cursor_le lines c' w' Hf Hh) as Hle;
        destruct (IH c' w') as (es & E & Hs & Hys)
      end; cbn [cur_y] in Hle, Hys.
    + exists es. split_and!; [done..|].
      eapply Forall_impl; [exact Hys|]. intros y' Hy'. cbn beta in *. lia.
    + by exists es.
    + eexists (_ :: es). rewrite E. cbn [record_drawn trace draw_ys omap].
      rewrite <-(assoc_L (++)). split_and!; [done| |].
      * constructor; [done|].
        eapply Forall_impl; [exact Hys|]. intros y' Hy'. cbn beta in *. lia.
      * constructor; [lia|].
        eapply Forall_impl; [exact Hys|]. intros y' Hy'. cbn beta in *. lia.
    + eexists (_ :: es). rewrite E. cbn [record_drawn trace draw_ys omap].
      rewrite <-(assoc_L (++)). split_and!; [done| |].
      * constructor; [done|].
        eapply Forall_impl; [exact Hys|]. intros y' Hy'. cbn beta in *. lia.
      * constructor; [lia|].
        eapply Forall_impl; [exact Hys|]. intros y' Hy'. cbn beta in *. lia.
Qed.

(** The lines a pass adds to the set: each is a line of the text that is
    not blank and was not in the set, none comes twice, and the trace has
    grown by one call for each. *)
Lemma for_each_set_growth lines c w :
  ∃ drawn,
    NoDup drawn ∧
    Forall (λ line, line ∈ lines ∧ strip line ≠ "" ∧
                    line ∉ sets w !!! drawn_lines) drawn ∧
    sets (for_each step lines c w).2 !!! drawn_lines
    = sets w !!! drawn_lines ∪ list_to_set drawn ∧
    length (trace (for_each step lines c w).2)
    = (length (trace w) + length drawn)%nat.
Proof.
  revert c w. induction lines as [|line lines IH]; intros c w.
  - exists []. cbn. split_and!; [constructor|done|set_solver|lia].
  - rewrite for_each_cons.
    destruct (draw_line_cases x heading_font font font_color drawn_lines c line w)
      as [[Hb ->]|[[Hb ->]|[(Hb & Hnew & ->)|(Hb & Hnew & text & lwh & ->)]]];
      cbn [fst snd];
      match goal with |- context [for_each _ lines ?c' ?w'] =>
        destruct (IH c' w') as (drawn & Hnd & Hall & Hset & Hlen)
      end.
    + exists drawn. split_and!; [done| |done..].
      eapply Forall_impl; [exact Hall|]. intros l (? & ? & ?).
      split_and!; [by right|done..].
    + exists drawn. split_and!; [done| |done..].
      eapply Forall_impl; [exact Hall|]. intros l (? & ? & ?).
      split_and!; [by right|done..].
    + rewrite record_drawn_lookup in Hset, Hall. exists (line :: drawn).
      rewrite Forall_forall in Hall. split_and!.
      * constructor; [|done]. intros Hin. apply Hall in Hin. set_solver.
      * constructor; [by split_and!; [left|..]|].
        rewrite Forall_forall. intros l Hl. destruct (Hall l Hl) as (? & ? & ?).
        split_and!; [by right|done|set_solver].
      * rewrite Hset. set_solver.
      * rewrite Hlen. cbn [record_drawn trace]. rewrite length_app. simpl. lia.
    + rewrite record_drawn_lookup in Hset, Hall. exists (line :: drawn).
      rewrite Forall_forall in Hall. split_and!.
      * constructor; [|done]. intros Hin. apply Hall in Hin. set_solver.
      * constructor; [by split_and!; [left|..]|].
        rewrite Forall_forall. intros l Hl. destruct (Hall l Hl) as (? & ? & ?).
        split_and!; [by right|done|set_solver].
      * rewrite Hset. set_solver.
      * rewrite Hlen. cbn [record_drawn trace]. rewrite length_app. simpl. lia.
Qed.

End renderer_more.

(** X7. All that [draw_text] adds to the trace are [draw.text] calls at
    the given [x], in the given colour, with the heading font or the body
    font, and at most one for each line of the text that is not blank. *)
Theorem draw_text_only_draws
  formatted_text x y heading_font font font_color previous_lines w :
  ∃ es,
    trace (draw_text formatted_text x y heading_font font font_color
             previous_lines w).2 = trace w ++ es ∧
    Forall (draws_with x heading_font font font_color) es ∧
    (length es
     ≤ length (filter (λ line, Str.strip line ≠ "") (Str.split_nl formatted_text)))%nat.
Proof. rewrite draw_text_run. cbn [snd]. apply for_each_draws. Qed.

(** X8. With fonts of positive size, the [draw.text] calls of one
    [draw_text] go strictly down the page: their ordinates increase
    strictly, start no higher than [y] and stay above the [y] that is
    returned. *)
Theorem draw_text_goes_down
  formatted_text x y heading_font font font_color previous_lines w :
  0 < size font → 0 < size heading_font →
  ∃ es,
    trace (draw_text formatted_text x y heading_font font font_color
             previous_lines w).2 = trace w ++ es ∧
    StronglySorted Z.lt (draw_ys es) ∧
    Forall (λ y', y ≤ y' < (draw_text formatted_text x y heading_font font
                              font_color previous_lines w).1.1)
      (draw_ys es).
Proof.
  intros Hf Hh. rewrite draw_text_run. cbn [fst snd].
  by apply (for_each_ordinates x heading_font font font_color _
              (Str.split_nl formatted_text) (start_cursor y) w).
Qed.

(** X9. [draw_text] adds to the set exactly the lines it draws: each is a
    line of the text that is not blank and was not in the set before, no
    line is added twice, and the trace grows by one call for each of
    them. Blank lines and lines passed over are never added. *)
Theorem draw_text_records_what_it_draws
  formatted_text x y heading_font font font_color previous_lines w :
  let l := default draw_text_default previous_lines in
  let r := draw_text formatted_text x y heading_font font font_color
             previous_lines w in
  ∃ drawn,
    NoDup drawn ∧
    Forall (λ line, line ∈ Str.split_nl formatted_text ∧
                    Str.strip line ≠ "" ∧ line ∉ sets w !!! l) drawn ∧
    sets r.2 !!! l = sets w !!! l ∪ list_to_set drawn ∧
    length (trace r.2) = (length (trace w) + length drawn)%nat.
Proof.
  intros l r. subst r. rewrite draw_text_run. cbn [snd].
  apply for_each_set_growth.
Qed.

(** ** More on the page composer *)

(** A search that succeeds on the sizes from [s] down has tried the sizes
    from [s] down to the one it found, which is the largest that passes. *)
Lemma search_sizes_found (ok : Z → bool) s tried k :
  search ok (sizes_down_from s) = (tried, Some k) →
  10 < k ≤ s ∧ ok k = true ∧ (∀ j, k < j ≤ s → ok j = false) ∧
  tried = reverse (seqZ k (s - k + 1)).
Proof.
  remember (Z.to_nat (s - 10)) as n eqn:Hn. revert s tried Hn.
  induction n as [|n IH]; intros s tried Hn.
  - by rewrite sizes_down_from_nil by lia.
  - rewrite sizes_down_from_cons by lia. cbn [search].
    destruct (ok s) eqn:Hs.
    + intros [= <- <-]. split; [lia|]. split; [done|]. split; [intros; lia|].
      by replace (s - s + 1) with 1 by lia.
    + destruct (search ok (sizes_down_from (s - 1))) as [tried' found] eqn:E.
      intros [= <- ->].
      destruct (IH (s - 1) tried') as (H1 & H2 & H3 & ->); [lia|done|].
      split; [lia|]. split; [done|]. split.
      * intros j Hj. destruct (decide (j = s)) as [->|]; [done|].
        apply H3. lia.
      * replace (s - 1 - k + 1) with (s - k) by lia.
        rewrite (seqZ_app k (s - k) 1) by lia. rewrite reverse_app.
        by replace (k + (s - k)) with s by lia.
Qed.

Section composer_more.
Context (P : Pillow) (text font_path output_path font_color : string).
Context (previous_texts : option loc).

Local Abbreviation compose :=
  (text_to_handwriting P text font_path output_path font_color previous_texts).

Lemma text_to_handwriting_font_missing_run w :
  font_available P font_path = false →
  compose w
  = (None,
     add_events w
       [NewImage 2000 3000;
        Truetype font_path 120; StError font_not_found;
        Truetype font_path 100; StError font_not_found]).
Proof.
  intros Hno. unfold text_to_handwriting, create_image. run.
  unfold loaded_font, load_events. rewrite Hno. by run.
Qed.

(** X10. When the font file cannot be opened the composer gives up at
    once: it reports the missing font for each of the two preview loads
    and returns [None]; the adapter is not invoked, nothing is drawn or
    saved and no set is touched. *)
Theorem missing_font_stops_the_composer w :
  font_available P font_path = false →
  text_to_handwriting P text font_path output_path font_color previous_texts w
  = (None,
     add_events w
       [NewImage 2000 3000;
        Truetype font_path 120; StError font_not_found;
        Truetype font_path 100; StError font_not_found]) ∧
  ¬ adapter_invoked font_path
      [NewImage 2000 3000;
       Truetype font_path 120; StError font_not_found;
       Truetype font_path 100; StError font_not_found].
Proof.
  intros Hno. split; [by apply text_to_handwriting_font_missing_run|].
  unfold adapter_invoked. intros H.
  repeat (apply elem_of_cons in H as [H|H]; [discriminate|]).
  by apply elem_of_nil in H.
Qed.

(** What a run that returns [None] has done. *)
Lemma text_to_handwriting_failure w :
  (compose w).1 = None →
  ∃ es msg,
    (compose w).2 = add_events w (es ++ [StError msg]) ∧
    Forall (λ e, is_output e = false) es.
Proof.
  destruct (font_available P font_path) eqn:Hfont.
  - rewrite (text_to_handwriting_run P font_path output_path font_color
               previous_texts Hfont).
    unfold adjust_font_size. rewrite adjust_loop_search.
    destruct (search _ _) as [tried found].
    rewrite (load_events_ok P font_path Hfont), add_events_app.
    assert (Forall (λ e, is_output e = false)
              ([NewImage 2000 3000; Truetype font_path 120;
                Truetype font_path 100] ++ (Truetype font_path <$> tried)))
      as Hquiet.
    { apply Forall_app. split; [by repeat constructor|].
      by apply Forall_fmap, Forall_true. }
    destruct found as [k|].
    + unfold loaded_font. rewrite Hfont.
      destruct (String.eqb _ ""); cbn [fst snd].
      * intros _. eexists _, could_not_format.
        split; [|exact Hquiet]. by rewrite add_events_app, <-(assoc_L (++)).
      * by destruct (draw_text _ _ _ _ _ _ _ _) as [[? ?] ?].
    + intros _. eexists _, could_not_format.
      split; [|exact Hquiet]. by rewrite add_events_app, <-(assoc_L (++)).
  - rewrite text_to_handwriting_font_missing_run by done. intros _.
    exists [NewImage 2000 3000; Truetype font_path 120; StError font_not_found;
            Truetype font_path 100], font_not_found.
    split; [done|by repeat constructor].
Qed.

(** X11. A conversion that fails leaves no partial output: whenever the
    composer returns [None], the last thing it did was to report an error
    through [st.error], it has drawn nothing and saved nothing, and the
    sets are as they were. *)
Theorem failed_conversion_leaves_no_output w :
  (text_to_handwriting P text font_path output_path font_color
     previous_texts w).1 = None →
  ∃ es msg,
    trace (text_to_handwriting P text font_path output_path font_color
     previous_texts w).2 = trace w ++ es ++ [StError msg] ∧
    Forall (λ e, is_output e = false) es ∧
    sets (text_to_handwriting P text font_path output_path font_color
     previous_texts w).2 = sets w.
Proof.
  intros (es & msg & E & Hes)%text_to_handwriting_failure.
  exists es, msg. by rewrite E.
Qed.

(** X12. A conversion that succeeds returns the output path it was given
    and the caller's set. It has loaded the font at 120 and 100, then at
    60 down to the largest size [k] at which the wrapped text fits, made
    its [draw.text] calls at abscissa 100 in the given colour with the
    font at 120 or at [k], and saved the page once, as its last action. *)
Theorem successful_conversion_shape w out l :
  (text_to_handwriting P text font_path output_path font_color
     previous_texts w).1 = Some (out, l) →
  out = output_path ∧
  l = default text_to_handwriting_default previous_texts ∧
  font_available P font_path = true ∧
  ∃ k draws,
    10 < k ≤ 60 ∧
    fits_at P text font_path 2000 3000 k = true ∧
    (∀ j, k < j ≤ 60 → fits_at P text font_path 2000 3000 j = false) ∧
    trace (text_to_handwriting P text font_path output_path font_color
     previous_texts w).2
    = trace w
      ++ [NewImage 2000 3000; Truetype font_path 120; Truetype font_path 100]
      ++ (Truetype font_path <$> reverse (seqZ k (61 - k)))
      ++ draws ++ [Save output_path] ∧
    Forall (draws_with 100 {| path := font_path; size := 120 |}
              {| path := font_path; size := k |} font_color) draws.
Proof.
  destruct (font_available P font_path) eqn:Hfont;
    [|by rewrite text_to_handwriting_font_missing_run].
  rewrite (text_to_handwriting_run P font_path output_path font_color
             previous_texts Hfont).
  unfold adjust_font_size. rewrite adjust_loop_search.
  destruct (search _ _) as [tried [k|]] eqn:Hsearch; [|done].
  apply search_sizes_found in Hsearch as (Hk & Hfit & Hlarger & ->).
  unfold loaded_font. rewrite Hfont.
  destruct (String.eqb _ ""); [done|].
  rewrite draw_text_run. cbn [fst snd default from_option id].
  intros [= <- <-]. split_and!; [done..|].
  match goal with |- context [for_each ?f ?ls ?c ?w'] =>
    destruct (for_each_draws 100 {| path := font_path; size := 120 |}
                {| path := font_path; size := k |} font_color
                (default text_to_handwriting_default previous_texts) ls c w')
      as (draws & E & Hdraws & _)
  end.
  exists k, draws. split; [done|]. split; [done|]. split; [done|].
  split; [|done].
  cbn [add_events trace]. rewrite E. cbn [add_events trace].
  rewrite (load_events_ok P font_path Hfont).
  replace (60 - k + 1) with (61 - k) by lia.
  by rewrite <-!(assoc_L (++)).
Qed.

(** The composer touches no set but the one it was given. *)
Lemma text_to_handwriting_other_sets w l' :
  l' ≠ default text_to_handwriting_default previous_texts →
  sets (compose w).2 !! l' = sets w !! l'.
Proof.
  intros Hl'. destruct (font_available P font_path) eqn:Hfont;
    [|by rewrite text_to_handwriting_font_missing_run].
  rewrite (text_to_handwriting_run P font_path output_path font_color
             previous_texts Hfont).
  unfold adjust_font_size. rewrite adjust_loop_search.
  destruct (search _ _) as [tried [k|]]; [|done].
  unfold loaded_font. rewrite Hfont.
  destruct (String.eqb _ ""); [done|].
  rewrite draw_text_run. cbn [fst snd default from_option id add_events sets].
  match goal with |- context [for_each ?f ?ls ?c ?w'] =>
    destruct (for_each_grows 100 {| path := font_path; size := 120 |}
                {| path := font_path; size := k |} font_color
                (default text_to_handwriting_default previous_texts) ls c w')
      as (_ & Hother & _)
  end.
  by rewrite Hother.
Qed.

(** What the composer returns when it does not return [None]. *)
Lemma text_to_handwriting_result w out l :
  (compose w).1 = Some (out, l) →
  out = output_path ∧ l = default text_to_handwriting_default previous_texts.
Proof.
  destruct (font_available P font_path) eqn:Hfont;
    [|by rewrite text_to_handwriting_font_missing_run].
  rewrite (text_to_handwriting_run P font_path output_path font_color
             previous_texts Hfont).
  destruct (adjust_font_size _ _ _ _ _ _) as [[formatted_text [font|]] w'];
    [|done].
  destruct (String.eqb formatted_text ""); [done|].
  rewrite draw_text_run. cbn [fst snd default from_option id].
  by intros [= <- <-].
Qed.

End composer_more.

(** ** The page of the application *)

Section page.
Context (P : Pillow) (user_text font_selection font_color : string).
Import Str StrFacts StrMore.

Lemma new_set_run w :
  new_set w
  = (fresh (dom (sets w)),
     {| trace := trace w; sets := <[fresh (dom (sets w)) := ∅]> (sets w) |}).
Proof. reflexivity. Qed.

Lemma wrap_blank_line max_width font :
  no_newline user_text = true → all_space user_text = true →
  split_text_into_lines P user_text max_width font = "".
Proof.
  intros Hnl Hsp. unfold split_text_into_lines.
  rewrite wrap_lines_single by done. unfold wrap_paragraph, strip.
  by rewrite lstrip_all_space_empty.
Qed.

(** The three ways the composer fails on a text: the font file is
    missing, the text is one blank line, or no size fits. *)
Lemma text_to_handwriting_fails font_path output_path previous_texts w :
  font_available P font_path = false
  ∨ (no_newline user_text = true ∧ all_space user_text = true)
  ∨ (∀ k, 10 < k ≤ 60 → fits_at P user_text font_path 2000 3000 k = false) →
  (text_to_handwriting P user_text font_path output_path font_color
     previous_texts w).1 = None.
Proof.
  intros Hwhy. destruct (font_available P font_path) eqn:Hfont;
    [|by rewrite text_to_handwriting_font_missing_run].
  rewrite (text_to_handwriting_run P font_path output_path font_color
             previous_texts Hfont).
  unfold adjust_font_size. destruct Hwhy as [?|[[Hnl Hsp]|Hnone]]; [done|..].
  - rewrite adjust_loop_search. destruct (search _ _) as [tried [k|]]; [|done].
    unfold loaded_font, wrapped_at. rewrite Hfont.
    by rewrite wrap_blank_line.
  - by rewrite adjust_loop_gives_up.
Qed.

Local Abbreviation page := (convert_page P user_text font_selection font_color).

(** The world in which the page calls the composer, and the call. *)
Local Abbreviation with_new_set w :=
  ({| trace := trace w; sets := <[fresh (dom (sets w)) := ∅]> (sets w) |}).
Local Abbreviation composer_call font_path w :=
  (text_to_handwriting P user_text font_path "handwriting_output.jpg"
     font_color (Some (fresh (dom (sets w)))) (with_new_set w)).

(** The run of the page once text, word count, button and font selection
    let it through to the composer. *)
Lemma convert_page_run font_path w :
  user_text ≠ "" → (length (split user_text) ≤ 1000)%nat →
  available_fonts !! font_selection = Some font_path →
  page true w
  = match (composer_call font_path w).1 with
    | None => (Raised "TypeError", (composer_call font_path w).2)
    | Some (output_image_path, drawn_lines) =>
        (if negb (String.eqb output_image_path "")
         then Displayed output_image_path else NotDisplayed,
         (set_update (fresh (dom (sets w))) drawn_lines
            (composer_call font_path w).2).2)
    end.
Proof.
  intros Htext Hwords Hsel. unfold convert_page.
  rewrite eqb_nonempty by done. cbn [negb andb].
  destruct (Z.ltb_spec 1000 (Z.of_nat (length (split user_text)))); [lia|].
  rewrite run_bind, new_set_run. cbn [fst snd]. rewrite Hsel, run_bind.
  destruct (composer_call font_path w).1 as [[out dl]|]; [|done].
  rewrite run_bind. by destruct (negb (String.eqb out "")).
Qed.

(** X13. The page runs the composer only when the button was pressed on a
    text that is not empty and has at most 1000 words, with a font name
    that is in the table: otherwise no page image is created. *)
Theorem composer_runs_only_on_checked_input button w es :
  trace (convert_page P user_text font_selection font_color button w).2
  = trace w ++ es →
  NewImage 2000 3000 ∈ es →
  user_text ≠ "" ∧ (length (split user_text) ≤ 1000)%nat ∧ button = true ∧
  is_Some (available_fonts !! font_selection).
Proof.
  intros Htrace Hin.
  assert (∀ msg, trace w ++ [StError msg] ≠ trace w ++ es) as Hreport.
  { intros msg E. apply app_inv_head in E as <-.
    apply list_elem_of_singleton in Hin. discriminate. }
  assert (trace w ≠ trace w ++ es) as Hquiet.
  { intros E. rewrite <-(app_nil_r (trace w)) in E at 1.
    apply app_inv_head in E as <-. by apply elem_of_nil in Hin. }
  revert Htrace. unfold convert_page.
  destruct (String.eqb_spec user_text "") as [Hempty|Htext]; cbn [negb andb].
  - rewrite run_bind, new_set_run. cbn [fst snd]. destruct button.
    + rewrite run_bind, run_emit, run_ret. cbn [fst snd add_events trace].
      intros E. by apply Hreport in E.
    + rewrite run_ret. cbn [snd trace]. intros E. by apply Hquiet in E.
  - destruct (Z.ltb_spec 1000 (Z.of_nat (length (split user_text))))
      as [Hmany|Hfew].
    + rewrite run_bind, run_emit, run_ret. cbn [fst snd add_events trace].
      intros E. by apply Hreport in E.
    + rewrite run_bind, new_set_run. cbn [fst snd]. destruct button.
      * destruct (available_fonts !! font_selection) as [font_path|].
        { intros _. split; [done|]. split; [lia|]. split; [done|by eexists]. }
        rewrite run_ret. cbn [snd trace]. intros E. by apply Hquiet in E.
      * rewrite run_ret. cbn [snd trace]. intros E. by apply Hquiet in E.
Qed.

(** X14. When the composer fails on a text the page lets through, because
    the font file is missing, the text is one blank line or no size fits,
    the page ends in a [TypeError]: it unpacks the composer's [None] as a
    pair. By then an error has been reported through [st.error]; nothing
    has been drawn or saved. *)
Theorem failed_conversion_raises_type_error font_path w :
  user_text ≠ "" → (length (split user_text) ≤ 1000)%nat →
  available_fonts !! font_selection = Some font_path →
  font_available P font_path = false
  ∨ (no_newline user_text = true ∧ all_space user_text = true)
  ∨ (∀ k, 10 < k ≤ 60 → fits_at P user_text font_path 2000 3000 k = false) →
  (convert_page P user_text font_selection font_color true w).1 = Raised "TypeError" ∧
  ∃ es msg,
    trace (convert_page P user_text font_selection font_color true w).2
    = trace w ++ es ++ [StError msg] ∧
    Forall (λ e, is_output e = false) es.
Proof.
  intros Htext Hwords Hsel Hwhy. rewrite (convert_page_run font_path) by done.
  pose proof (text_to_handwriting_fails font_path "handwriting_output.jpg"
                (Some (fresh (dom (sets w)))) (with_new_set w) Hwhy) as Hnone.
  destruct (text_to_handwriting_failure P user_text font_path
              "handwriting_output.jpg" font_color (Some (fresh (dom (sets w))))
              (with_new_set w) Hnone) as (es & msg & E & Hes).
  rewrite Hnone. cbn [fst snd]. split; [done|].
  exists es, msg. by rewrite E.
Qed.

(** X15. A run of the page changes no set object that existed before it,
    whatever the inputs: the set it hands to the composer is a new one
    each time, so neither the default sets of the functions nor the set of
    an earlier run are read or written. *)
Theorem page_leaves_existing_sets button w l' :
  l' ∈ dom (sets w) →
  sets (convert_page P user_text font_selection font_color button w).2 !! l'
  = sets w !! l'.
Proof.
  intros Hl'.
  assert (l' ≠ fresh (dom (sets w))) as Hfresh.
  { intros ->. by apply is_fresh in Hl'. }
  unfold convert_page.
  destruct (negb (String.eqb user_text "")
            && (1000 <? Z.of_nat (length (split user_text)))).
  { by rewrite run_bind, run_emit, run_ret. }
  rewrite run_bind, new_set_run. cbn [fst snd].
  assert (sets (with_new_set w) !! l' = sets w !! l') as Hnew.
  { cbn [sets]. by rewrite lookup_insert_ne. }
  destruct button; [|done].
  destruct (negb (String.eqb user_text ""));
    [|by rewrite run_bind, run_emit, run_ret].
  destruct (available_fonts !! font_selection) as [font_path|]; [|done].
  rewrite run_bind.
  pose proof (text_to_handwriting_other_sets P user_text font_path
                "handwriting_output.jpg" font_color
                (Some (fresh (dom (sets w)))) (with_new_set w) l' Hfresh)
    as Hother.
  destruct (text_to_handwriting _ _ _ _ _ _ _) as [[[out dl]|] w2];
    cbn [fst snd] in *.
  - rewrite run_bind. unfold set_update at 1. cbn [fst snd].
    destruct (negb (String.eqb out "")); rewrite run_ret; cbn [snd sets];
      by rewrite lookup_insert_ne, Hother.
  - rewrite run_ret. cbn [snd]. by rewrite Hother.
Qed.

(** X16. When the composer succeeds, the page shows the image at
    ["handwriting_output.jpg"]; and [previous_texts.update(drawn_lines)]
    changes nothing, for the set the composer returns is the very set
    [previous_texts] that the page passed to it. *)
Theorem successful_page_run font_path w :
  user_text ≠ "" → (length (split user_text) ≤ 1000)%nat →
  available_fonts !! font_selection = Some font_path →
  let composed :=
    text_to_handwriting P user_text font_path "handwriting_output.jpg"
      font_color (Some (fresh (dom (sets w))))
      {| trace := trace w; sets := <[fresh (dom (sets w)) := ∅]> (sets w) |} in
  is_Some composed.1 →
  (convert_page P user_text font_selection font_color true w).1
  = Displayed "handwriting_output.jpg" ∧
  trace (convert_page P user_text font_selection font_color true w).2
  = trace composed.2 ∧
  ∀ l, sets (convert_page P user_text font_selection font_color true w).2 !!! l
       = sets composed.2 !!! l.
Proof.
  intros Htext Hwords Hsel composed [[out dl] Hsome]. subst composed.
  rewrite (convert_page_run font_path) by done. rewrite Hsome.
  apply text_to_handwriting_result in Hsome as [-> ->].
  cbn [negb String.eqb fst snd default from_option id set_update sets trace].
  split; [done|]. split; [done|]. intros l.
  destruct (decide (l = fresh (dom (sets w)))) as [->|Hl].
  - rewrite lookup_total_insert_eq. set_solver.
  - by rewrite lookup_total_insert_ne.
Qed.

End page.

(** ** The further statements at work *)

Lemma text_fits_monotone_width_witness :
  100 ≤ 200 ∧
  text_fits_on_page mono "Hi" (Some font60) 100 100 = true ∧
  text_fits_on_page mono "Hi" (Some font60) 200 100 = true.
Proof.
  split; [by vm_compute|]. split; [reflexivity|].
  apply (text_fits_monotone_width mono (Some font60) "Hi" 100 200 100);
    [by vm_compute|reflexivity].
Defined.

Lemma adjust_picks_largest_fit_witness :
  fits_at mono word61 "font.ttf" 2000 3000 59 = true ∧
  fits_at mono word61 "font.ttf" 2000 3000 60 = false ∧
  adjust_font_size mono word61 "font.ttf" 2000 3000 initial_world
  = ((wrapped_at mono word61 "font.ttf" 2000 59,
      loaded_font mono "font.ttf" 59),
     add_events initial_world
       (flat_map (load_events mono "font.ttf") (reverse (seqZ 59 (61 - 59))))).
Proof.
  split; [by vm_compute|]. split; [by vm_compute|].
  apply (adjust_picks_largest_fit mono word61 "font.ttf" 2000 3000 59
           initial_world).
  - by vm_compute.
  - by vm_compute.
  - intros j Hj. assert (j = 60) as -> by lia. by vm_compute.
Defined.

Lemma draw_text_goes_down_witness :
  0 < size font60 ∧ 0 < size font120 ∧
  ∃ es,
    trace (draw_text ("## A" +:+ nl +:+ "b") 100 100 font120 font60 "#000000"
             None initial_world).2 = trace initial_world ++ es ∧
    StronglySorted Z.lt (draw_ys es) ∧
    Forall (λ y', 100 ≤ y' < (draw_text ("## A" +:+ nl +:+ "b") 100 100 font120
                                font60 "#000000" None initial_world).1.1)
      (draw_ys es).
Proof.
  split; [reflexivity|]. split; [reflexivity|].
  apply (draw_text_goes_down ("## A" +:+ nl +:+ "b") 100 100 font120 font60
           "#000000" None initial_world); reflexivity.
Defined.

Lemma missing_font_stops_the_composer_witness :
  font_available mono_without_fonts "font.ttf" = false ∧
  (text_to_handwriting mono_without_fonts "Hello" "font.ttf" "out.jpg"
     "#000000" None initial_world).1 = None.
Proof.
  split; [reflexivity|].
  destruct (missing_font_stops_the_composer mono_without_fonts "Hello"
              "font.ttf" "out.jpg" "#000000" None initial_world) as [E _];
    [reflexivity|].
  by rewrite E.
Defined.

Lemma failed_conversion_leaves_no_output_witness :
  (text_to_handwriting mono "" "font.ttf" "out.jpg" "#000000" None
     initial_world).1 = None ∧
  sets (text_to_handwriting mono "" "font.ttf" "out.jpg" "#000000" None
          initial_world).2 = sets initial_world.
Proof.
  split; [by vm_compute|].
  destruct (failed_conversion_leaves_no_output mono "" "font.ttf" "out.jpg"
              "#000000" None initial_world) as (es & msg & _ & _ & E);
    [by vm_compute|exact E].
Defined.

Lemma successful_conversion_shape_witness :
  (text_to_handwriting mono title_and_hello "font.ttf" "out.jpg" "#000000"
     None initial_world).1 = Some ("out.jpg", text_to_handwriting_default) ∧
  font_available mono "font.ttf" = true.
Proof.
  split; [by vm_compute|].
  destruct (successful_conversion_shape mono title_and_hello "font.ttf"
              "out.jpg" "#000000" None initial_world "out.jpg"
              text_to_handwriting_default) as (_ & _ & E & _);
    [by vm_compute|exact E].
Defined.

Lemma composer_runs_only_on_checked_input_witness :
  NewImage 2000 3000
  ∈ [NewImage 2000 3000;
     Truetype "fonts/Satisfy-Regular.ttf" 120;
     Truetype "fonts/Satisfy-Regular.ttf" 100;
     Truetype "fonts/Satisfy-Regular.ttf" 60;
     DrawText 100 100 "Hello"
       {| path := "fonts/Satisfy-Regular.ttf"; size := 60 |} "#000000";
     Save "handwriting_output.jpg"] ∧
  "Hello" ≠ "" ∧ (length (split "Hello") ≤ 1000)%nat ∧
  is_Some (available_fonts !! "Satisfy").
Proof.
  split; [by left|].
  destruct (composer_runs_only_on_checked_input mono "Hello" "Satisfy"
              "#000000" true initial_world
              [NewImage 2000 3000;
               Truetype "fonts/Satisfy-Regular.ttf" 120;
               Truetype "fonts/Satisfy-Regular.ttf" 100;
               Truetype "fonts/Satisfy-Regular.ttf" 60;
               DrawText 100 100 "Hello"
                 {| path := "fonts/Satisfy-Regular.ttf"; size := 60 |} "#000000";
               Save "handwriting_output.jpg"]) as (H1 & H2 & _ & H3);
    [by vm_compute|by left|].
  split; [done|]. split; [by apply Nat.leb_le|exact H3].
Defined.

Lemma failed_conversion_raises_type_error_witness :
  "   " ≠ "" ∧ (length (split "   ") ≤ 1000)%nat ∧
  available_fonts !! "Satisfy" = Some "fonts/Satisfy-Regular.ttf" ∧
  no_newline "   " = true ∧ all_space "   " = true ∧
  (convert_page mono "   " "Satisfy" "#000000" true initial_world).1
  = Raised "TypeError".
Proof.
  split; [done|]. split; [by apply Nat.leb_le|]. split; [by vm_compute|].
  split; [reflexivity|]. split; [reflexivity|].
  destruct (failed_conversion_raises_type_error mono "   " "Satisfy" "#000000"
              "fonts/Satisfy-Regular.ttf" initial_world) as [E _];
    [done|by apply Nat.leb_le|by vm_compute|by right; left|exact E].
Defined.

Lemma page_leaves_existing_sets_witness :
  draw_text_default ∈ dom (sets initial_world) ∧
  sets (convert_page mono "Hello" "Satisfy" "#000000" true initial_world).2
    !! draw_text_default
  = sets initial_world !! draw_text_default.
Proof.
  assert (draw_text_default ∈ dom (sets initial_world)) as Hdom.
  { apply elem_of_dom. by exists ∅. }
  split; [exact Hdom|].
  by apply (page_leaves_existing_sets mono "Hello" "Satisfy" "#000000" true
              initial_world).
Defined.

Lemma successful_page_run_witness :
  "Hello" ≠ "" ∧ (length (split "Hello") ≤ 1000)%nat ∧
  available_fonts !! "Satisfy" = Some "fonts/Satisfy-Regular.ttf" ∧
  (convert_page mono "Hello" "Satisfy" "#000000" true initial_world).1
  = Displayed "handwriting_output.jpg".
Proof.
  split; [done|]. split; [by apply Nat.leb_le|]. split; [by vm_compute|].
  destruct (successful_page_run mono "Hello" "Satisfy" "#000000"
              "fonts/Satisfy-Regular.ttf" initial_world) as [E _];
    [done|by apply Nat.leb_le|by vm_compute|by vm_compute; eexists|exact E].
Defined.

(** ** Words repeated from one paragraph to the next *)

Section repeated_words.
Context (P : Pillow) (max_width : Z) (font : option Font).
Import Str StrFacts StrMore.

Lemma split_nl_two_words u v :
  is_word u = true → is_word v = true →
  split_nl (u +:+ nl +:+ v) = [u; v].
Proof.
  intros Hu Hv. change (nl +:+ v) with (String newline v).
  rewrite split_nl_app_newline
    by by apply no_space_no_newline, is_word_no_space.
  by rewrite split_nl_no_newline
    by by apply no_space_no_newline, is_word_no_space.
Qed.

(** A paragraph that is one word, when the line it makes with what is
    pending fits. *)
Lemma wrap_paragraph_one_word lines current_line w :
  is_word w = true →
  line_width P font (join " " (current_line ++ [w])) ≤ max_width →
  wrap_paragraph P max_width font (lines, current_line) w
  = (lines ++ [join " " (current_line ++ [w])], current_line ++ [w]).
Proof.
  intros Hw Hfit. unfold wrap_paragraph.
  rewrite strip_word, (eqb_nonempty w), startswith_no_space, split_word
    by auto using is_word_nonempty, is_word_no_space.
  cbn [fold_left]. rewrite wrap_word_fits by done.
  by destruct current_line.
Qed.

(** C4 (as the code behaves). On a raw text of two one-word lines [u] and
    [v] that fit, the wrapper returns the lines [u] and [u v]: the flush at
    the end of a paragraph does not empty [current_line], so the second
    paragraph starts with the words of the first. The words of the output
    are [u; u; v], those of the raw text [u; v]. *)
Theorem wrap_repeats_pending_words u v :
  is_word u = true → is_word v = true →
  line_width P font u ≤ max_width →
  line_width P font (u +:+ " " +:+ v) ≤ max_width →
  split_text_into_lines P (u +:+ nl +:+ v) max_width font
  = u +:+ nl +:+ (u +:+ " " +:+ v) ∧
  split (split_text_into_lines P (u +:+ nl +:+ v) max_width font) = [u; u; v] ∧
  split (u +:+ nl +:+ v) = [u; v].
Proof.
  intros Hu Hv Hfit1 Hfit2.
  assert (wrap_lines P (u +:+ nl +:+ v) max_width font
          = [u; join " " [u; v]]) as Hlines.
  { unfold wrap_lines. rewrite split_nl_two_words by done. cbn [fold_left].
    rewrite (wrap_paragraph_one_word [] [] u) by done.
    by rewrite (wrap_paragraph_one_word _ [u] v) by done. }
  unfold split_text_into_lines. rewrite Hlines. split_and!.
  - done.
  - rewrite split_join_nl. cbn [flat_map].
    rewrite split_word, split_join_words by by repeat constructor.
    done.
  - change (nl +:+ v) with (String newline v).
    by rewrite split_app_space, !split_word.
Qed.

End repeated_words.

Lemma wrap_repeats_pending_words_witness :
  is_word "a" = true ∧ is_word "b" = true ∧
  line_width mono (Some font60) "a" ≤ 1800 ∧
  line_width mono (Some font60) "a b" ≤ 1800 ∧
  split (split_text_into_lines mono ("a" +:+ nl +:+ "b") 1800 (Some font60))
  = ["a"; "a"; "b"] ∧
  split ("a" +:+ nl +:+ "b") = ["a"; "b"].
Proof.
  split; [reflexivity|]. split; [reflexivity|].
  split; [by vm_compute|]. split; [by vm_compute|].
  destruct (wrap_repeats_pending_words mono 1800 (Some font60) "a" "b")
    as (_ & H1 & H2); [reflexivity|reflexivity|by vm_compute|by vm_compute|].
  by split.
Defined.
